(** * ember-cli-deploy-gcs-index: the revision store over a storage bucket

    A shallow embedding of [lib/util/join-uri-segments.js] and of the
    adapter object that requires it ([upload], [activate], [fetchRevisions]).

    - JavaScript strings are [string]; a character stands for one code unit.
    - The bucket is a list of stored objects in listing order; the calls the
      adapter issues on the storage client are recorded in a trace.
    - Promises are a state-passing monad over the world (bucket, trace, log)
      with three outcomes: fulfilled, rejected, never settled.
    - What the storage service, the local disk and the mime table answer in
      one call of the adapter is read from an [Oracle] record. *)

From stdpp Require Import base strings list gmap.
From Stdlib Require Import ZArith Lia Sorted Permutation.

Local Open Scope string_scope.
Local Open Scope list_scope.
Local Open Scope Z_scope.

(** ** JavaScript primitives used by the adapter *)

Module JS.

(** [s.substr(n)]: the characters of [s] from position [n] on. *)
Fixpoint substr (s : string) (n : nat) {struct n} : string :=
  match n, s with
  | O, _ => s
  | S n', String _ s' => substr s' n'
  | S _, EmptyString => EmptyString
  end.

(** [s.indexOf(sub)]: the first position at which [sub] occurs in [s],
    or -1. *)
Fixpoint indexOf_from (sub s : string) (i : Z) : Z :=
  if String.prefix sub s then i
  else match s with
       | EmptyString => -1
       | String _ s' => indexOf_from sub s' (i + 1)
       end.

Definition indexOf (s sub : string) : Z := indexOf_from sub s 0.

(** [arr.indexOf(x)] on an array of strings (strict equality). *)
Fixpoint array_indexOf_from (x : string) (arr : list string) (i : Z) : Z :=
  match arr with
  | [] => -1
  | y :: arr' =>
      if String.eqb y x then i else array_indexOf_from x arr' (i + 1)
  end.

Definition array_indexOf (arr : list string) (x : string) : Z :=
  array_indexOf_from x arr 0.

(** Truthiness of a property that is a string or undefined: [undefined]
    and the empty string are falsy. *)
Definition truthy (v : option string) : bool :=
  match v with
  | None => false
  | Some s => negb (String.eqb s "")
  end.

(** [a || b] where [a] is a string or a falsy value and [b] a string. *)
Definition or_else (a : option string) (b : string) : string :=
  match a with
  | Some s => if String.eqb s "" then b else s
  | None => b
  end.

(** [String(v)] for a property that is a string or undefined, as
    [indexOf] converts its argument. *)
Definition to_string (v : option string) : string :=
  match v with
  | Some s => s
  | None => "undefined"
  end.

(** [arr.sort(cmp)]: the stable sort of [arr] by a comparator; [a] goes
    before [b] when [cmp a b <= 0] and [a] was not after [b]. *)
Section Sort.
Context {A : Type} (cmp : A -> A -> Z).

Fixpoint insert_sorted (x : A) (l : list A) : list A :=
    match l with
    | [] => [x]
    | y :: l' =>
        if cmp x y <=? 0 then x :: y :: l' else y :: insert_sorted x l'
    end.

Fixpoint sort (l : list A) : list A :=
    match l with
    | [] => []
    | x :: l' => insert_sorted x (sort l')
    end.
End Sort.

End JS.

(** ** lib/util/join-uri-segments.js *)

Definition joinUriSegments (prefix uri : string) : string :=
  if String.eqb prefix "" then uri else prefix +:+ "/" +:+ uri.

(** ** The storage service, as the adapter sees it *)

(** An object's metadata, and the [meta] argument of [setMetadata]: the
    top-level string properties ([contentType], [cacheControl], [acl], ...)
    and the [metadata] property, the object of custom keys, which may be
    undefined. *)
Record Meta := mkMeta {
  fields : gmap string string;
  metadata : option (gmap string string) }.

(** A stored object. [updated] is the instant [new Date(metadata.updated)]
    denotes, in milliseconds. *)
Record File := mkFile {
  name : string;
  body : string;
  md : Meta;
  updated : Z;
  gzipped : bool;
  public : bool }.

(** The argument of [createWriteStream]; [gzip] is absent unless set. *)
Record WriteParams := mkWriteParams {
  wp_metadata : Meta;
  wp_gzip : option bool }.

(** The calls issued on the storage client. *)
Inductive Call :=
| GetFiles (prefix : string)
| GetMetadata (key : string)
| CreateWriteStream (key : string) (params : WriteParams)
| Copy (src dst : string)
| MakePublic (key : string)
| SetMetadata (key : string) (meta : Meta).

Definition mutating (c : Call) : bool :=
  match c with
  | GetFiles _ | GetMetadata _ => false
  | _ => true
  end.

(** What a promise is rejected with: a string literal of the adapter, an
    error object of the storage client, or a TypeError thrown in a
    callback. *)
Inductive Reason :=
| Message (s : string)
| ApiError (e : string)
| TypeError.

Inductive LogEntry :=
| Logged (msg : string) (verbose : bool)
| LoggedError (r : Reason).

Record World := mkWorld {
  bucket : list File;
  calls : list Call;
  log : list LogEntry }.

(** The answers of the collaborators during one call of the adapter. An
    [_error] field set makes the storage call of that name fail with that
    error; [getMetadata_error] also gives [response.error.code] when the
    response carries one. [read_file] is the local disk (None: the read
    stream emits an error), [current_first] tells whether the metadata
    callback of [fetchRevisions] runs before the listing callback. *)
Record Oracle := mkOracle {
  mime_lookup : string -> option string;
  read_file : string -> option string;
  now : Z;
  getFiles_error : option string;
  getMetadata_error : option (string * option Z);
  current_first : bool;
  copy_error : option string;
  makePublic_error : option string;
  setMetadata_error : option string;
  write_error : option string }.

Definition has_prefix (p : string) (f : File) : bool := String.prefix p (name f).

Definition named (key : string) (f : File) : bool := String.eqb (name f) key.

(** [bucket.file(key)], when it exists. *)
Definition file (b : list File) (key : string) : option File :=
  List.find (named key) b.

(** Storing an object replaces the one of the same name, or adds it. *)
Fixpoint put (f : File) (b : list File) : list File :=
  match b with
  | [] => [f]
  | g :: b' => if named (name f) g then f :: b' else g :: put f b'
  end.

(** A patch of an object's metadata: given properties replace the stored
    ones, given custom keys are merged into the stored custom keys. *)
Definition patch (m old : Meta) : Meta :=
  {| fields := fields m ∪ fields old;
     metadata := match metadata m with
                 | Some c => Some (c ∪ default ∅ (metadata old))
                 | None => metadata old
                 end |}.

(** ** Promises *)

Inductive Settled (A : Type) :=
| Fulfilled (a : A)
| Rejected (r : Reason)
| Pending.
Arguments Fulfilled {A} a.
Arguments Rejected {A} r.
Arguments Pending {A}.

Definition Promise (A : Type) : Type := World -> Settled A * World.

Definition resolve {A} (a : A) : Promise A := fun w => (Fulfilled a, w).

Definition reject {A} (r : Reason) : Promise A := fun w => (Rejected r, w).

(** [p.then(onFulfilled, onRejected)] *)
Definition then2 {A B} (p : Promise A)
    (onFulfilled : A -> Promise B) (onRejected : Reason -> Promise B) : Promise B :=
  fun w =>
    match p w with
    | (Fulfilled a, w') => onFulfilled a w'
    | (Rejected r, w') => onRejected r w'
    | (Pending, w') => (Pending, w')
    end.

(** [p.then(onFulfilled)] *)
Definition then_ {A B} (p : Promise A) (onFulfilled : A -> Promise B) : Promise B :=
  then2 p onFulfilled reject.

(** [RSVP.hash] of two promises: both are started, in order; the first
    rejection wins. *)
Definition hash {A B} (second_first : bool) (pa : Promise A) (pb : Promise B)
  : Promise (A * B) :=
  fun w =>
    let (ra, w1) := pa w in
    let (rb, w2) := pb w1 in
    (match ra, rb with
     | Fulfilled a, Fulfilled b => Fulfilled (a, b)
     | Rejected r, Rejected r' => Rejected (if second_first then r' else r)
     | Rejected r, _ => Rejected r
     | _, Rejected r' => Rejected r'
     | _, _ => Pending
     end, w2).

Definition issue (c : Call) (w : World) : World :=
  {| bucket := bucket w; calls := calls w ++ [c]; log := log w |}.

Definition plugin_log (e : LogEntry) : Promise unit :=
  fun w => (Fulfilled tt, {| bucket := bucket w; calls := calls w; log := log w ++ [e] |}).

Definition with_bucket (b : list File) (w : World) : World :=
  {| bucket := b; calls := calls w; log := log w |}.

(** *** The storage calls as promises *)

(** [bucket.getFiles({prefix}, callback)] *)
Definition getFiles_result (o : Oracle) (b : list File) (prefix : string)
  : Settled (list File) :=
  match getFiles_error o with
  | Some e => Rejected (ApiError e)
  | None => Fulfilled (List.filter (has_prefix prefix) b)
  end.

Definition getFiles (o : Oracle) (prefix : string) : Promise (list File) :=
  fun w => (getFiles_result o (bucket w) prefix, issue (GetFiles prefix) w).

(** The arguments [(error, metadata, response)] that the callback of
    [getMetadata] receives. *)
Inductive MetadataReply :=
| MetadataOk (m : Meta)
| MetadataFailed (e : string) (code : option Z).

Definition getMetadata_reply (o : Oracle) (b : list File) (key : string) : MetadataReply :=
  match getMetadata_error o with
  | Some (e, code) => MetadataFailed e code
  | None =>
      match file b key with
      | Some f => MetadataOk (md f)
      | None => MetadataFailed "Not Found" (Some 404)
      end
  end.

(** [file.copy(dest, callback)], denodeified: fulfilled with the destination. *)
Definition copyObject (o : Oracle) (src dst : string) : Promise string :=
  fun w =>
    let w' := issue (Copy src dst) w in
    match copy_error o, file (bucket w) src with
    | Some e, _ => (Rejected (ApiError e), w')
    | None, None => (Rejected (ApiError "Not Found"), w')
    | None, Some f =>
        (Fulfilled dst,
         with_bucket (put (mkFile dst (body f) (md f) (now o) (gzipped f) false) (bucket w)) w')
    end.

(** [file.makePublic(callback)], denodeified *)
Definition makePublic (o : Oracle) (key : string) : Promise unit :=
  fun w =>
    let w' := issue (MakePublic key) w in
    match makePublic_error o, file (bucket w) key with
    | Some e, _ => (Rejected (ApiError e), w')
    | None, None => (Rejected (ApiError "Not Found"), w')
    | None, Some f =>
        (Fulfilled tt,
         with_bucket (put (mkFile key (body f) (md f) (updated f) (gzipped f) true) (bucket w)) w')
    end.

(** [file.setMetadata(meta, callback)], denodeified *)
Definition setMetadata (o : Oracle) (key : string) (meta : Meta) : Promise unit :=
  fun w =>
    let w' := issue (SetMetadata key meta) w in
    match setMetadata_error o, file (bucket w) key with
    | Some e, _ => (Rejected (ApiError e), w')
    | None, None => (Rejected (ApiError "Not Found"), w')
    | None, Some f =>
        (Fulfilled tt,
         with_bucket
           (put (mkFile key (body f) (patch meta (md f)) (now o) (gzipped f) (public f))
                (bucket w)) w')
    end.

(** ** The adapter *)

(** The [options] object the three operations receive. [meta] and
    [gzippedFilePaths] may be undefined; [allowOverwrite] and [makePublic]
    are read for their truthiness. *)
Record Options := mkOptions {
  opt_prefix : string;
  opt_filePattern : string;
  opt_revisionKey : string;
  opt_filePath : string;
  opt_acl : option string;
  opt_allowOverwrite : bool;
  opt_gzippedFilePaths : option (list string);
  opt_meta : option Meta;
  opt_makePublic : bool }.

(** An element of the array [fetchRevisions] is fulfilled with. [active] is
    [data.current && ...]: undefined (None) when there is no index object. *)
Record Revision := mkRevision {
  revision : string;
  timestamp : Z;
  active : option bool }.

Definition is_active (r : Revision) : bool := default false (active r).

Definition no_cache : string := "max-age=0, no-cache".

Definition already_uploaded : string :=
  "REVISION ALREADY UPLOADED! (set `allowOverwrite: true` if you want to support overwriting revisions)".

Definition not_found : string := "REVISION NOT FOUND!".

(** *** fetchRevisions *)

Definition revisionPrefix_of (options : Options) : string :=
  joinUriSegments (opt_prefix options) (opt_filePattern options +:+ ":").

Definition indexKey_of (options : Options) : string :=
  joinUriSegments (opt_prefix options) (opt_filePattern options).

(** [response && response.error && response.error.code === 404] *)
Definition is_404 (code : option Z) : bool :=
  match code with
  | Some c => c =? 404
  | None => false
  end.

(** The [current] promise: the metadata of the index object; a 404 reply is
    fulfilled with undefined. *)
Definition current_result (reply : MetadataReply) : Settled (option Meta) :=
  match reply with
  | MetadataFailed error code =>
      if is_404 code then Fulfilled None else Rejected (ApiError error)
  | MetadataOk m => Fulfilled (Some m)
  end.

Definition current (o : Oracle) (indexKey : string) : Promise (option Meta) :=
  fun w =>
    (current_result (getMetadata_reply o (bucket w) indexKey),
     issue (GetMetadata indexKey) w).

(** The comparator of the sort: [new Date(b.metadata.updated) - new Date(a.metadata.updated)] *)
Definition newest_first (a b : File) : Z := updated b - updated a.

(** The order the comparator sorts into. *)
Definition newer_or_same (a b : File) : Prop := updated b <= updated a.

(** The callback of [map]; None when it throws, which reading [revision]
    of an undefined [data.current.metadata] does. *)
Definition to_revision (revisionPrefix : string) (cur : option Meta) (d : File)
  : option Revision :=
  let revision := JS.substr (name d) (String.length revisionPrefix) in
  match cur with
  | None => Some (mkRevision revision (updated d) None)
  | Some m =>
      match metadata m with
      | None => None
      | Some custom =>
          let active := 0 <=? JS.indexOf (name d) (JS.to_string (custom !! "revision")) in
          Some (mkRevision revision (updated d) (Some active))
      end
  end.

Definition fetchRevisions (options : Options) (o : Oracle) : Promise (list Revision) :=
  let revisionPrefix := revisionPrefix_of options in
  let indexKey := indexKey_of options in
  then_ (hash (current_first o) (getFiles o revisionPrefix) (current o indexKey))
    (fun data =>
       match mapM (to_revision revisionPrefix (snd data))
                  (JS.sort newest_first (fst data)) with
       | Some revisions => resolve revisions
       | None => reject TypeError
       end).

(** The key of the revision object: [joinUriSegments(prefix, filePattern + ":" + revisionKey)] *)
Definition objectKey_of (options : Options) : string :=
  joinUriSegments (opt_prefix options)
    (opt_filePattern options +:+ ":" +:+ opt_revisionKey options).

(** The listing the bucket answers [fetchRevisions] with, and the world
    after its two reads. *)
Definition listing (options : Options) (w : World) : list File :=
  List.filter (has_prefix (revisionPrefix_of options)) (bucket w).

Definition after_reads (options : Options) (w : World) : World :=
  issue (GetMetadata (indexKey_of options)) (issue (GetFiles (revisionPrefix_of options)) w).

(** What [data.current] is, from the reply to [getMetadata]. *)
Inductive current_is (o : Oracle) (b : list File) (key : string) : option Meta -> Prop :=
| current_found m :
    getMetadata_reply o b key = MetadataOk m -> current_is o b key (Some m)
| current_absent e code :
    getMetadata_reply o b key = MetadataFailed e code -> is_404 code = true ->
    current_is o b key None.

(** The calls issued between two worlds. *)
Definition new_calls (w w' : World) : list Call :=
  drop (length (calls w)) (calls w').

(** *** upload *)

Definition upload_params (options : Options) (o : Oracle) : WriteParams :=
  let gzippedFilePaths := default [] (opt_gzippedFilePaths options) in
  let isGzipped :=
    negb (JS.array_indexOf gzippedFilePaths (opt_filePattern options) =? -1) in
  let base : gmap string string :=
    {[ "contentType" := JS.or_else (mime_lookup o (opt_filePath options)) "text/html";
       "cacheControl" := no_cache ]} in
  {| wp_metadata :=
       {| fields := match opt_acl options with
                    | Some acl => <["acl" := acl]> base
                    | None => base
                    end;
          metadata := None |};
     wp_gzip := if isGzipped then Some true else None |}.

(** [fs.createReadStream(filePath).pipe(file.createWriteStream(params))]
    with its [error] and [finish] listeners, which are on the write stream:
    an error of the read stream settles nothing. *)
Definition write_stream (o : Oracle) (key filePath : string) (params : WriteParams)
  : Promise unit :=
  fun w =>
    let w' := issue (CreateWriteStream key params) w in
    match read_file o filePath with
    | None => (Pending, w')
    | Some data =>
        match write_error o with
        | Some e => (Rejected (ApiError e), w')
        | None =>
            plugin_log (Logged ("✔  " +:+ key) true)
              (with_bucket
                 (put (mkFile key data (wp_metadata params) (now o)
                         (bool_decide (wp_gzip params = Some true)) false)
                      (bucket w)) w')
        end
    end.

Definition upload (options : Options) (o : Oracle) : Promise unit :=
  let allowOverwrite := opt_allowOverwrite options in
  let key := opt_filePattern options +:+ ":" +:+ opt_revisionKey options in
  let revisionKey := joinUriSegments (opt_prefix options) key in
  let params := upload_params options o in
  then_
    (then_ (fetchRevisions options o)
       (fun revisions =>
          let found := JS.array_indexOf (map revision revisions) (opt_revisionKey options) in
          if (0 <=? found) && negb allowOverwrite
          then reject (Message already_uploaded)
          else resolve tt))
    (fun _ => write_stream o revisionKey (opt_filePath options) params).

(** *** activate *)

(** [options.meta || {}] with the defaults filled in and the revision
    stamped. *)
Definition activate_meta (options : Options) : Meta :=
  let meta := default (mkMeta ∅ None) (opt_meta options) in
  let meta :=
    if negb (JS.truthy (fields meta !! "cacheControl"))
    then mkMeta (<["cacheControl" := no_cache]> (fields meta)) (metadata meta)
    else meta in
  let meta :=
    match metadata meta with
    | None => mkMeta (fields meta) (Some ∅)
    | Some _ => meta
    end in
  mkMeta (fields meta)
    (Some (<["revision" := opt_revisionKey options]> (default ∅ (metadata meta)))).

Definition activate (options : Options) (o : Oracle) : Promise unit :=
  let prefix := opt_prefix options in
  let filePattern := opt_filePattern options in
  let key := filePattern +:+ ":" +:+ opt_revisionKey options in
  let meta := activate_meta options in
  let revisionKey := joinUriSegments prefix key in
  let indexKey := joinUriSegments prefix filePattern in
  then_ (fetchRevisions options o)
    (fun revisions =>
       let found := JS.array_indexOf (map revision revisions) (opt_revisionKey options) in
       if 0 <=? found then
         then_ (copyObject o revisionKey indexKey)
           (fun file =>
              if opt_makePublic options then
                then2 (makePublic o file)
                  (fun _ =>
                     then_ (setMetadata o file meta)
                       (fun _ => plugin_log (Logged ("✔  " +:+ revisionKey +:+ " => " +:+ indexKey) false)))
                  (fun err => plugin_log (LoggedError err))
              else
                then_ (setMetadata o file meta)
                  (fun _ => plugin_log (Logged ("✔  " +:+ revisionKey +:+ " => " +:+ indexKey) false)))
       else reject (Message not_found)).

(** ** A sample deployment *)

Definition sample_mime (path : string) : option string :=
  if String.eqb path "dist/index.html" then Some "text/html" else None.

(** All collaborators answer; the clock reads 1000. *)
Definition calm : Oracle :=
  mkOracle sample_mime (fun _ => Some "<html></html>") 1000
    None None false None None None None.

(** The make-public call is refused. *)
Definition acl_refused : Oracle :=
  mkOracle sample_mime (fun _ => Some "<html></html>") 1000
    None None false None (Some "Forbidden") None None.

(** The listing call fails. *)
Definition listing_down : Oracle :=
  mkOracle sample_mime (fun _ => Some "<html></html>") 1000
    (Some "ECONNRESET") None false None None None None.

(** The metadata fetch is refused with a 403 reply. *)
Definition metadata_refused : Oracle :=
  mkOracle sample_mime (fun _ => Some "<html></html>") 1000
    None (Some ("Forbidden", Some 403)) false None None None None.

Definition revision_object (key : string) (t : Z) : File :=
  mkFile key "<html></html>"
    (mkMeta {[ "contentType" := "text/html"; "cacheControl" := no_cache ]} None)
    t false false.

(** Three uploaded revisions under [app/], no index object yet. *)
Definition sample_world : World :=
  mkWorld [ revision_object "app/index.html:abc" 10;
            revision_object "app/index.html:abcd" 20;
            revision_object "app/index.html:zz" 15 ] [] [].

Definition sample_options (revisionKey : string) (makePublic : bool) : Options :=
  mkOptions "app" "index.html" revisionKey "dist/index.html" (Some "publicRead")
    false (Some ["index.html"]) None makePublic.

(** What [fetchRevisions] answers on the sample. *)
Definition sample_revisions : list Revision :=
  [ mkRevision "abcd" 20 None; mkRevision "zz" 15 None; mkRevision "abc" 10 None ].

(** The copy call fails. *)
Definition copy_down : Oracle :=
  mkOracle sample_mime (fun _ => Some "<html></html>") 1000
    None None false (Some "Backend Error") None None None.

(** The metadata write fails. *)
Definition metadata_write_down : Oracle :=
  mkOracle sample_mime (fun _ => Some "<html></html>") 1000
    None None false None None (Some "Precondition Failed") None.

(** The storage fails the write stream. *)
Definition stream_down : Oracle :=
  mkOracle sample_mime (fun _ => Some "<html></html>") 1000
    None None false None None None (Some "EPIPE").

(** The local file cannot be read. *)
Definition disk_down : Oracle :=
  mkOracle sample_mime (fun _ => None) 1000
    None None false None None None None.

Definition empty_world : World := mkWorld [] [] [].

(** The sample with an index object that has no custom metadata. *)
Definition bare_index_world : World :=
  mkWorld (bucket sample_world ++
           [mkFile "app/index.html" "<html></html>" (mkMeta ∅ None) 500 false false])
          [] [].

(** The sample with an index object whose custom metadata has no
    [revision] key. *)
Definition unstamped_index_world : World :=
  mkWorld (bucket sample_world ++
           [mkFile "app/index.html" "<html></html>"
              (mkMeta ∅ (Some {[ "build" := "42" ]})) 500 false false])
          [] [].

(** The sample after the upload of revision [new]. *)
Definition uploaded_world : World :=
  snd (upload (sample_options "new" false) calm sample_world).

Definition uploaded_revisions : list Revision :=
  [ mkRevision "new" 1000 None; mkRevision "abcd" 20 None;
    mkRevision "zz" 15 None; mkRevision "abc" 10 None ].

(** * Properties *)

(** ** The primitives on small inputs *)

Example joinUriSegments_app : joinUriSegments "app" "index.html" = "app/index.html".
Proof. reflexivity. Qed.

Example joinUriSegments_bare : joinUriSegments "" "index.html:abc" = "index.html:abc".
Proof. reflexivity. Qed.

Example substr_past_end : JS.substr "abc" 5 = "".
Proof. reflexivity. Qed.

Example indexOf_inside : JS.indexOf "app/index.html:abcd" "abc" = 15.
Proof. reflexivity. Qed.

Example indexOf_nowhere : JS.indexOf "app/index.html:zz" "abc" = -1.
Proof. reflexivity. Qed.

Example array_indexOf_second : JS.array_indexOf ["abcd"; "zz"; "abc"] "zz" = 1.
Proof. reflexivity. Qed.

Example sort_is_stable :
  JS.sort (fun a b : Z * string => fst b - fst a) [(1, "a"); (2, "b"); (1, "c"); (2, "d")]
  = [(2, "b"); (2, "d"); (1, "a"); (1, "c")].
Proof. reflexivity. Qed.

Example fetchRevisions_sample :
  fst (fetchRevisions (sample_options "abc" false) calm sample_world)
  = Fulfilled sample_revisions.
Proof. reflexivity. Qed.

(** ** Strings and arrays *)

#[local] Arguments String.append !_ _ / : simpl nomatch.

Lemma append_assoc (a b c : string) : (a +:+ b) +:+ c = a +:+ (b +:+ c).
Proof. induction a as [|x a IH]; simpl; [reflexivity | now rewrite IH]. Qed.

Lemma append_length (a b : string) :
  String.length (a +:+ b) = (String.length a + String.length b)%nat.
Proof. induction a as [|x a IH]; simpl; [reflexivity | now rewrite IH]. Qed.

Lemma prefix_append (p s : string) : String.prefix p (p +:+ s) = true.
Proof.
  induction p as [|x p IH]; simpl.
  - now destruct s.
  - destruct (Ascii.ascii_dec x x); [exact IH | congruence].
Qed.

Lemma prefix_split (p s : string) :
  String.prefix p s = true -> p +:+ JS.substr s (String.length p) = s.
Proof.
  revert s. induction p as [|x p IH]; intros s H.
  - reflexivity.
  - destruct s as [|y s]; simpl in H; [discriminate |].
    destruct (Ascii.ascii_dec x y) as [->|]; [| discriminate].
    simpl. now rewrite IH.
Qed.

Lemma prefix_length (p s : string) :
  String.prefix p s = true -> (String.length p <= String.length s)%nat.
Proof.
  intros H. rewrite <- (prefix_split p s H), append_length. lia.
Qed.

Lemma indexOf_from_nil (sub : string) (i : Z) :
  JS.indexOf_from sub "" i = if String.prefix sub "" then i else -1.
Proof. reflexivity. Qed.

Lemma indexOf_from_cons (sub : string) (x : Ascii.ascii) (s : string) (i : Z) :
  JS.indexOf_from sub (String x s) i =
  if String.prefix sub (String x s) then i else JS.indexOf_from sub s (i + 1).
Proof. reflexivity. Qed.

Lemma prefix_occurs (sub s : string) :
  String.prefix sub s = true -> exists a b, s = a +:+ sub +:+ b.
Proof.
  intros H. exists "", (JS.substr s (String.length sub)).
  symmetry. now apply prefix_split.
Qed.

(** [indexOf] finds an occurrence exactly when there is one. *)
Lemma indexOf_from_found (sub s : string) (i : Z) :
  0 <= i ->
  (0 <= JS.indexOf_from sub s i <-> exists a b, s = a +:+ sub +:+ b).
Proof.
  revert i. induction s as [|x s IH]; intros i Hi.
  - rewrite indexOf_from_nil. destruct (String.prefix sub "") eqn:Hp.
    + split; [intros _; now apply prefix_occurs | lia].
    + split; [lia |].
      intros (a & b & Hab). destruct a; simpl in Hab.
      * rewrite Hab, prefix_append in Hp. discriminate.
      * discriminate.
  - rewrite indexOf_from_cons.
    destruct (String.prefix sub (String x s)) eqn:Hp.
    + split; [intros _; now apply prefix_occurs | lia].
    + rewrite (IH (i + 1)) by lia. split.
      * intros (a & b & ->). now exists (String x a), b.
      * intros (a & b & Hab). destruct a as [|y a]; simpl in Hab.
        -- rewrite Hab, prefix_append in Hp. discriminate.
        -- injection Hab as _ ->. now exists a, b.
Qed.

Lemma indexOf_found (s sub : string) :
  0 <= JS.indexOf s sub <-> exists a b, s = a +:+ sub +:+ b.
Proof. now apply indexOf_from_found. Qed.

Lemma array_indexOf_from_found (x : string) (arr : list string) (i : Z) :
  0 <= i -> (0 <= JS.array_indexOf_from x arr i <-> In x arr).
Proof.
  revert i. induction arr as [|y arr IH]; intros i Hi; simpl.
  - split; [lia | tauto].
  - destruct (String.eqb_spec y x) as [->|Hne].
    + split; [now left | lia].
    + rewrite (IH (i + 1)) by lia. split; [now right | intros [?|?]; congruence].
Qed.

Lemma array_indexOf_found (arr : list string) (x : string) :
  0 <= JS.array_indexOf arr x <-> In x arr.
Proof. now apply array_indexOf_from_found. Qed.

Lemma array_indexOf_leb (arr : list string) (x : string) :
  (0 <=? JS.array_indexOf arr x) = true <-> In x arr.
Proof. rewrite Z.leb_le. apply array_indexOf_found. Qed.

(** ** The sort *)

Section SortFacts.
Context {A : Type} (cmp : A -> A -> Z).

Lemma insert_sorted_perm (x : A) (l : list A) :
  Permutation (JS.insert_sorted cmp x l) (x :: l).
Proof.
  induction l as [|y l IH]; simpl; [reflexivity |].
  destruct (cmp x y <=? 0); [reflexivity |].
  rewrite IH. apply perm_swap.
Qed.

Lemma sort_perm (l : list A) : Permutation (JS.sort cmp l) l.
Proof.
  induction l as [|x l IH]; simpl; [reflexivity |].
  rewrite insert_sorted_perm. now constructor.
Qed.

End SortFacts.

Lemma insert_newest_first (x : File) (l : list File) :
  StronglySorted newer_or_same l ->
  StronglySorted newer_or_same (JS.insert_sorted newest_first x l).
Proof.
  induction 1 as [|y l Hl IH Hy]; simpl.
  - repeat constructor.
  - unfold newest_first at 1. destruct (Z.leb_spec (updated y - updated x) 0) as [Hle|Hgt].
    + constructor; [now constructor |].
      constructor; [unfold newer_or_same; lia |].
      eapply Forall_impl; [exact Hy |].
      unfold newer_or_same. intros z Hz. lia.
    + constructor; [exact IH |].
      eapply Permutation_Forall.
      * symmetry. apply insert_sorted_perm.
      * constructor; [unfold newer_or_same; lia | exact Hy].
Qed.

Lemma sort_newest_first (l : list File) :
  StronglySorted newer_or_same (JS.sort newest_first l).
Proof.
  induction l as [|x l IH]; simpl; [constructor | now apply insert_newest_first].
Qed.

(** ** The bucket *)

Lemma named_eq (key : string) (f : File) : named key f = true <-> name f = key.
Proof. apply String.eqb_eq. Qed.

Lemma file_put (f : File) (b : list File) (key : string) :
  file (put f b) key = if String.eqb (name f) key then Some f else file b key.
Proof.
  unfold file. induction b as [|g b IH]; simpl.
  - unfold named at 1. now destruct (String.eqb (name f) key).
  - destruct (named (name f) g) eqn:Hg; simpl.
    + apply named_eq in Hg. unfold named at 1 3. rewrite Hg.
      now destruct (String.eqb (name f) key).
    + unfold named at 1 3. destruct (String.eqb_spec (name g) key) as [Hk|Hk].
      * destruct (String.eqb_spec (name f) key) as [Hf|Hf]; [| reflexivity].
        apply not_true_iff_false in Hg. exfalso. apply Hg, named_eq. congruence.
      * exact IH.
Qed.

Lemma file_put_same (f : File) (b : list File) : file (put f b) (name f) = Some f.
Proof. now rewrite file_put, String.eqb_refl. Qed.

(** Storing an object outside a listing's prefix leaves the listing as it was. *)
Lemma filter_put (p : string) (f : File) (b : list File) :
  has_prefix p f = false ->
  List.filter (has_prefix p) (put f b) = List.filter (has_prefix p) b.
Proof.
  intros Hf. induction b as [|g b IH]; simpl.
  - now rewrite Hf.
  - destruct (named (name f) g) eqn:Hg; simpl.
    + apply named_eq in Hg. rewrite Hf.
      unfold has_prefix in *. now rewrite Hg, Hf.
    + now rewrite IH.
Qed.

Lemma file_listed (p : string) (b : list File) (d : File) :
  In d (List.filter (has_prefix p) b) -> exists f, file b (name d) = Some f.
Proof.
  intros H. apply List.filter_In in H as [H _].
  destruct (file b (name d)) as [f|] eqn:Hf; [now exists f |].
  unfold file in Hf. eapply List.find_none in Hf; [| exact H].
  unfold named in Hf. now rewrite String.eqb_refl in Hf.
Qed.

(** ** Keys *)

Lemma revisionKey_split (options : Options) :
  joinUriSegments (opt_prefix options)
    (opt_filePattern options +:+ ":" +:+ opt_revisionKey options)
  = revisionPrefix_of options +:+ opt_revisionKey options.
Proof.
  unfold revisionPrefix_of, joinUriSegments.
  destruct (String.eqb (opt_prefix options) "");
    now rewrite ?append_assoc.
Qed.

Lemma revisionPrefix_split (options : Options) :
  revisionPrefix_of options = indexKey_of options +:+ ":".
Proof.
  unfold revisionPrefix_of, indexKey_of, joinUriSegments.
  destruct (String.eqb (opt_prefix options) "");
    now rewrite ?append_assoc.
Qed.

(** The index object is never part of the listing of revisions. *)
Lemma index_not_listed (options : Options) (f : File) :
  name f = indexKey_of options -> has_prefix (revisionPrefix_of options) f = false.
Proof.
  intros Hn. unfold has_prefix. rewrite Hn.
  destruct (String.prefix _ _) eqn:Hp; [| reflexivity].
  apply prefix_length in Hp.
  rewrite revisionPrefix_split, append_length in Hp. simpl in Hp. lia.
Qed.

(** ** fetchRevisions, step by step *)

Ltac case_mapM :=
  match goal with
  | |- context [mapM ?f ?l] => destruct (mapM f l)
  | H : context [mapM ?f ?l] |- _ => destruct (mapM f l)
  end.

Lemma fetchRevisions_run (options : Options) (o : Oracle) (w : World) :
  fetchRevisions options o w =
  (match getFiles_result o (bucket w) (revisionPrefix_of options),
         current_result (getMetadata_reply o (bucket w) (indexKey_of options)) with
   | Fulfilled files, Fulfilled cur =>
       match mapM (to_revision (revisionPrefix_of options) cur)
                  (JS.sort newest_first files) with
       | Some revisions => Fulfilled revisions
       | None => Rejected TypeError
       end
   | Rejected r, Rejected r' => Rejected (if current_first o then r' else r)
   | Rejected r, _ => Rejected r
   | _, Rejected r' => Rejected r'
   | _, _ => Pending
   end, after_reads options w).
Proof.
  unfold fetchRevisions, then_, then2, hash, getFiles, current, after_reads, resolve, reject.
  simpl.
  destruct (getFiles_result o (bucket w) (revisionPrefix_of options)) as [files|r|];
    destruct (current_result _) as [cur|r'|]; simpl; try reflexivity.
  case_mapM; reflexivity.
Qed.

Lemma current_result_found (o : Oracle) (b : list File) (key : string) (cur : option Meta) :
  current_result (getMetadata_reply o b key) = Fulfilled cur <-> current_is o b key cur.
Proof.
  split.
  - destruct (getMetadata_reply o b key) as [m|e code] eqn:Hm; simpl.
    + intros [= <-]. now constructor.
    + destruct (is_404 code) eqn:H404; [| discriminate].
      intros [= <-]. eapply current_absent; eassumption.
  - intros [m Hm | e code Hm H404]; rewrite Hm; simpl; [| rewrite H404]; reflexivity.
Qed.

Lemma fetchRevisions_eval (options : Options) (o : Oracle) (w : World) (cur : option Meta) :
  getFiles_error o = None ->
  current_is o (bucket w) (indexKey_of options) cur ->
  fetchRevisions options o w =
  (match mapM (to_revision (revisionPrefix_of options) cur)
                (JS.sort newest_first (listing options w)) with
   | Some revisions => Fulfilled revisions
   | None => Rejected TypeError
   end, after_reads options w).
Proof.
  intros Hg Hc. apply current_result_found in Hc.
  rewrite fetchRevisions_run, Hc. unfold getFiles_result. now rewrite Hg.
Qed.

Lemma fetchRevisions_inv (options : Options) (o : Oracle) (w w' : World)
    (revisions : list Revision) :
  fetchRevisions options o w = (Fulfilled revisions, w') ->
  w' = after_reads options w /\
  getFiles_error o = None /\
  exists cur,
    current_is o (bucket w) (indexKey_of options) cur /\
    mapM (to_revision (revisionPrefix_of options) cur)
         (JS.sort newest_first (listing options w)) = Some revisions.
Proof.
  rewrite fetchRevisions_run. intros [= H ->]. split; [reflexivity |].
  unfold getFiles_result in H. destruct (getFiles_error o) as [e|].
  - destruct (current_result _); discriminate.
  - split; [reflexivity |].
    destruct (current_result _) as [cur|r|] eqn:Hc; try discriminate.
    exists cur. split; [now apply current_result_found |].
    fold (listing options w) in H.
    destruct (mapM _ (JS.sort newest_first (listing options w))); [congruence | discriminate].
Qed.

(** Every listed revision comes from a listed object, in sorted order. *)
Lemma revisions_of_listing (rp : string) (cur : option Meta)
    (files : list File) (revisions : list Revision) :
  mapM (to_revision rp cur) files = Some revisions ->
  Forall2 (fun d r => revision r = JS.substr (name d) (String.length rp) /\
                      timestamp r = updated d) files revisions.
Proof.
  intros H. apply mapM_Some in H.
  eapply Forall2_impl; [exact H |].
  intros d r Hr. unfold to_revision in Hr.
  destruct cur as [m|]; [destruct (metadata m) |]; try discriminate;
    injection Hr as <-; now split.
Qed.

Lemma timestamps_of_listing (rp : string) (cur : option Meta)
    (files : list File) (revisions : list Revision) :
  mapM (to_revision rp cur) files = Some revisions ->
  map timestamp revisions = map updated files.
Proof.
  intros H. apply revisions_of_listing in H.
  induction H as [|d r files revisions [_ Ht] _ IH]; simpl; [reflexivity |].
  now rewrite Ht, IH.
Qed.

Lemma sorted_by_updated (files : list File) :
  StronglySorted newer_or_same files -> StronglySorted Z.ge (map updated files).
Proof.
  induction 1 as [|d files _ IH Hd]; simpl; constructor; [exact IH |].
  apply List.Forall_map. eapply Forall_impl; [exact Hd |].
  unfold newer_or_same. intros; simpl; lia.
Qed.

Lemma sorted_by_timestamp (revisions : list Revision) :
  StronglySorted Z.ge (map timestamp revisions) ->
  StronglySorted (fun a b => timestamp b <= timestamp a) revisions.
Proof.
  induction revisions as [|r revisions IH]; simpl; intros H; [constructor |].
  apply StronglySorted_inv in H as [Hs Hr].
  constructor; [now apply IH |].
  apply (proj1 (List.Forall_map _ _ _)) in Hr. eapply Forall_impl; [exact Hr |].
  intros; simpl in *; lia.
Qed.

(** A descending arrangement of three increasing instants is the reverse. *)
Lemma descending_three (l : list Z) (t1 t2 t3 : Z) :
  Permutation l [t1; t2; t3] -> StronglySorted Z.ge l -> t1 < t2 < t3 ->
  l = [t3; t2; t1].
Proof.
  intros Hp Hs Ht.
  assert (Hlen := Permutation_length Hp).
  destruct l as [|x [|y [|z [|? ?]]]]; try discriminate.
  assert (Hin : forall u, In u [x; y; z] <-> In u [t1; t2; t3]).
  { intros u. split; apply Permutation_in; [exact Hp | now symmetry]. }
  apply StronglySorted_inv in Hs as [Hs Hx].
  apply StronglySorted_inv in Hs as [_ Hy].
  apply Forall_cons in Hx as [Hxy Hx]. apply Forall_cons in Hx as [Hxz _].
  apply Forall_cons in Hy as [Hyz _].
  pose proof (proj1 (Hin x)) as Hx'. pose proof (proj1 (Hin y)) as Hy'.
  pose proof (proj1 (Hin z)) as Hz'. pose proof (proj2 (Hin t1)) as H1.
  pose proof (proj2 (Hin t2)) as H2. pose proof (proj2 (Hin t3)) as H3.
  simpl in *.
  assert (x = t3 /\ y = t2 /\ z = t1) as (-> & -> & ->) by lia.
  reflexivity.
Qed.

(** ** upload and activate after the listing *)

Lemma new_calls_app (w w' : World) (cs : list Call) :
  calls w' = calls w ++ cs -> new_calls w w' = cs.
Proof. unfold new_calls. intros ->. apply drop_app_length. Qed.

Lemma after_reads_calls (options : Options) (w : World) :
  new_calls w (after_reads options w) =
  [GetFiles (revisionPrefix_of options); GetMetadata (indexKey_of options)].
Proof. apply new_calls_app. simpl. now rewrite <- app_assoc. Qed.

Lemma upload_run (options : Options) (o : Oracle) (w w1 : World)
    (revisions : list Revision) :
  fetchRevisions options o w = (Fulfilled revisions, w1) ->
  upload options o w =
  if (0 <=? JS.array_indexOf (map revision revisions) (opt_revisionKey options))
     && negb (opt_allowOverwrite options)
  then (Rejected (Message already_uploaded), w1)
  else write_stream o
         (objectKey_of options) (opt_filePath options) (upload_params options o) w1.
Proof.
  intros H. unfold upload, then_, then2. rewrite H.
  now destruct (_ && _).
Qed.

Lemma activate_not_found (options : Options) (o : Oracle) (w w1 : World)
    (revisions : list Revision) :
  fetchRevisions options o w = (Fulfilled revisions, w1) ->
  ~ In (opt_revisionKey options) (map revision revisions) ->
  activate options o w = (Rejected (Message not_found), w1).
Proof.
  intros H Hn. unfold activate, then_, then2. rewrite H.
  destruct (0 <=? _) eqn:Hf; [| reflexivity].
  now apply array_indexOf_leb in Hf.
Qed.


Lemma mapM_no_current (rp : string) (files : list File) :
  mapM (to_revision rp None) files =
  Some (map (fun d => mkRevision (JS.substr (name d) (String.length rp)) (updated d) None) files).
Proof.
  apply mapM_Some. induction files as [|d files IH]; simpl; constructor;
    [reflexivity | exact IH].
Qed.

Lemma array_indexOf_from_range (x : string) (arr : list string) (i : Z) :
  JS.array_indexOf_from x arr i = -1 \/ i <= JS.array_indexOf_from x arr i.
Proof.
  revert i. induction arr as [|y arr IH]; intros i; simpl; [now left |].
  destruct (String.eqb y x); [right; lia |].
  destruct (IH (i + 1)) as [H|H]; [now left | right; lia].
Qed.

Lemma array_indexOf_missing (arr : list string) (x : string) :
  negb (JS.array_indexOf arr x =? -1) = true <-> In x arr.
Proof.
  rewrite <- array_indexOf_found, negb_true_iff, Z.eqb_neq.
  destruct (array_indexOf_from_range x arr 0) as [H|H]; unfold JS.array_indexOf; lia.
Qed.

(** The parameters [upload] opens the write stream with. *)
Lemma upload_params_spec (options : Options) (o : Oracle) :
  let params := upload_params options o in
  (forall t, mime_lookup o (opt_filePath options) = Some t -> t <> "" ->
             fields (wp_metadata params) !! "contentType" = Some t) /\
  (mime_lookup o (opt_filePath options) = None ->
   fields (wp_metadata params) !! "contentType" = Some "text/html") /\
  fields (wp_metadata params) !! "cacheControl" = Some "max-age=0, no-cache" /\
  fields (wp_metadata params) !! "acl" = opt_acl options /\
  (wp_gzip params = Some true <->
   In (opt_filePattern options) (default [] (opt_gzippedFilePaths options))) /\
  (wp_gzip params = None <->
   ~ In (opt_filePattern options) (default [] (opt_gzippedFilePaths options))).
Proof.
  unfold upload_params. simpl.
  assert (Hct : forall v, (match opt_acl options with
                | Some acl => <["acl":=acl]> ({["contentType" := v; "cacheControl" := no_cache]} : gmap string string)
                | None => {["contentType" := v; "cacheControl" := no_cache]}
                end) !! "contentType" = Some v).
  { intros v. destruct (opt_acl options); now simplify_map_eq. }
  split; [| split; [| split; [| split]]].
  - intros t Ht Hne. rewrite Ht. simpl.
    destruct (String.eqb_spec t ""); [contradiction | apply Hct].
  - intros ->. apply Hct.
  - destruct (opt_acl options); now simplify_map_eq.
  - destruct (opt_acl options); now simplify_map_eq.
  - rewrite <- array_indexOf_missing.
    destruct (negb _); intuition congruence.
Qed.

(** The calls of an [upload]: the two reads, then at most the opening of
    the write stream. *)
Lemma upload_calls (options : Options) (o : Oracle) (w : World) :
  exists tail,
    new_calls w (snd (upload options o w)) =
      GetFiles (revisionPrefix_of options) :: GetMetadata (indexKey_of options) :: tail /\
    (tail = [] \/
     tail = [CreateWriteStream (objectKey_of options) (upload_params options o)]).
Proof.
  unfold upload, then_, then2. rewrite fetchRevisions_run.
  unfold write_stream, plugin_log, reject, resolve, after_reads, issue, with_bucket.
  repeat (case_match; simpl in * ); simplify_eq; simpl;
    eexists; (split; [apply new_calls_app; simpl; rewrite <- ?app_assoc; reflexivity |]);
    auto.
Qed.

(** ** activate after the listing *)

Lemma Forall2_In_r {A B : Type} (R : A -> B -> Prop) (l : list A) (k : list B) (y : B) :
  Forall2 R l k -> In y k -> exists x, In x l /\ R x y.
Proof.
  induction 1 as [|x y' l k Hxy _ IH]; simpl; [tauto |].
  intros [<- | Hin]; [exists x; auto |].
  destruct (IH Hin) as (x' & Hx' & HR). exists x'. auto.
Qed.

Lemma file_put_key (f : File) (b : list File) (key : string) :
  name f = key -> file (put f b) key = Some f.
Proof. intros <-. apply file_put_same. Qed.

Lemma listing_put (options : Options) (f : File) (b : list File) :
  name f = indexKey_of options ->
  List.filter (has_prefix (revisionPrefix_of options)) (put f b) =
  List.filter (has_prefix (revisionPrefix_of options)) b.
Proof. intros Hn. apply filter_put. now apply index_not_listed. Qed.

Lemma listed_name (options : Options) (w : World) (d : File) :
  In d (JS.sort newest_first (listing options w)) ->
  name d = revisionPrefix_of options +:+
           JS.substr (name d) (String.length (revisionPrefix_of options)) /\
  In d (listing options w).
Proof.
  intros Hd. eapply Permutation_in in Hd; [| apply sort_perm].
  split; [| exact Hd].
  apply List.filter_In in Hd as [_ Hp]. symmetry. now apply prefix_split.
Qed.

(** A revision the listing reports is an object of the bucket, under the
    revision key. *)
Lemma found_object (options : Options) (o : Oracle) (w w1 : World)
    (revisions : list Revision) :
  fetchRevisions options o w = (Fulfilled revisions, w1) ->
  In (opt_revisionKey options) (map revision revisions) ->
  exists f, file (bucket w) (objectKey_of options) = Some f.
Proof.
  intros H Hin. apply fetchRevisions_inv in H as (_ & _ & cur & _ & Hm).
  apply revisions_of_listing in Hm.
  apply in_map_iff in Hin as (r & Hr & Hin).
  destruct (Forall2_In_r _ _ _ _ Hm Hin) as (d & Hd & Hdr & _).
  apply listed_name in Hd as [Hn Hd].
  unfold objectKey_of. rewrite revisionKey_split, <- Hr, Hdr, <- Hn.
  now apply (file_listed (revisionPrefix_of options)).
Qed.

(** The calls of an [activate]: the two reads, then the copy, the ACL
    change and the metadata write as far as the activation got. *)
Lemma activate_calls (options : Options) (o : Oracle) (w : World) :
  let copy := Copy (objectKey_of options) (indexKey_of options) in
  let acl := MakePublic (indexKey_of options) in
  let write := SetMetadata (indexKey_of options) (activate_meta options) in
  exists tail,
    new_calls w (snd (activate options o w)) =
      GetFiles (revisionPrefix_of options) :: GetMetadata (indexKey_of options) :: tail /\
    (tail = [] \/ tail = [copy] \/ tail = [copy; acl] \/
     tail = [copy; acl; write] \/ tail = [copy; write]).
Proof.
  unfold activate, then_, then2. rewrite fetchRevisions_run. cbv zeta.
  fold (objectKey_of options) (indexKey_of options).
  generalize (activate_meta options) as meta. intros meta.
  unfold copyObject, makePublic, setMetadata, plugin_log, reject, after_reads, issue, with_bucket.
  repeat (case_match; simpl in * ); simplify_eq; simpl;
    eexists; (split; [apply new_calls_app; simpl; rewrite <- ?app_assoc; reflexivity |]);
    tauto.
Qed.

(** The metadata [activate] writes, against the caller's [meta]. *)
Lemma activate_meta_spec (options : Options) :
  let caller := default (mkMeta ∅ None) (opt_meta options) in
  let meta := activate_meta options in
  (forall v, fields caller !! "cacheControl" = Some v -> v <> "" ->
             fields meta !! "cacheControl" = Some v) /\
  (fields caller !! "cacheControl" = None \/ fields caller !! "cacheControl" = Some "" ->
   fields meta !! "cacheControl" = Some "max-age=0, no-cache") /\
  (forall k, k <> "cacheControl" -> fields meta !! k = fields caller !! k) /\
  exists custom,
    metadata meta = Some custom /\
    custom !! "revision" = Some (opt_revisionKey options) /\
    forall k, k <> "revision" -> custom !! k = default ∅ (metadata caller) !! k.
Proof.
  unfold activate_meta.
  generalize (default (mkMeta ∅ None) (opt_meta options)). intros [fs custom]. simpl.
  split; [| split; [| split]].
  - intros v Hv Hne. rewrite Hv. simpl.
    destruct (String.eqb_spec v ""); [contradiction |].
    simpl. now destruct custom.
  - intros [Hv | Hv]; rewrite Hv; simpl; destruct custom; simpl; apply lookup_insert_eq.
  - intros k Hk.
    destruct (negb (JS.truthy (fs !! "cacheControl"))); destruct custom; simpl;
      try reflexivity; now apply lookup_insert_ne.
  - eexists. split; [reflexivity |].
    split; [apply lookup_insert_eq |].
    intros k Hk. rewrite lookup_insert_ne by done.
    destruct (negb (JS.truthy (fs !! "cacheControl"))); now destruct custom.
Qed.

Lemma append_empty_r (s : string) : s +:+ "" = s.
Proof. induction s as [|x s IH]; simpl; [reflexivity | now rewrite IH]. Qed.

(** The revision keys of a listing depend on the listed objects only. *)
Lemma revision_keys_of_listing (rp : string) (cur : option Meta)
    (files : list File) (revisions : list Revision) :
  mapM (to_revision rp cur) files = Some revisions ->
  map revision revisions = map (fun d => JS.substr (name d) (String.length rp)) files.
Proof.
  intros H. apply revisions_of_listing in H.
  induction H as [|d r files revisions [Hr _] _ IH]; simpl; [reflexivity |].
  now rewrite Hr, IH.
Qed.

(** With an index object that carries a revision, every listed object
    becomes a revision whose [active] is the substring test. *)
Lemma mapM_with_current (rp : string) (m : Meta) (custom : gmap string string)
    (rk : string) (files : list File) :
  metadata m = Some custom -> custom !! "revision" = Some rk ->
  mapM (to_revision rp (Some m)) files =
  Some (map (fun d => mkRevision (JS.substr (name d) (String.length rp)) (updated d)
                        (Some (0 <=? JS.indexOf (name d) rk))) files).
Proof.
  intros Hm Hr. apply mapM_Some.
  induction files as [|d files IH]; simpl; constructor; [| exact IH].
  unfold to_revision. now rewrite Hm, Hr.
Qed.

(** An activation whose storage calls all succeed: the index object ends
    up with the revision object's body and the written metadata patched
    onto the revision object's; the listing of revisions is untouched. *)
Lemma activate_success (options : Options) (o : Oracle) (w w1 : World)
    (revisions : list Revision) (f : File) :
  fetchRevisions options o w = (Fulfilled revisions, w1) ->
  In (opt_revisionKey options) (map revision revisions) ->
  file (bucket w) (objectKey_of options) = Some f ->
  copy_error o = None ->
  setMetadata_error o = None ->
  (opt_makePublic options = true -> makePublic_error o = None) ->
  exists w' g,
    activate options o w = (Fulfilled tt, w') /\
    file (bucket w') (indexKey_of options) = Some g /\
    body g = body f /\
    md g = patch (activate_meta options) (md f) /\
    listing options w' = listing options w.
Proof.
  intros H Hin Hf Hcopy Hset Hacl.
  apply array_indexOf_leb in Hin.
  unfold activate, then_, then2. rewrite H, Hin. cbv zeta.
  fold (objectKey_of options) (indexKey_of options).
  apply fetchRevisions_inv in H as (-> & _).
  unfold copyObject. simpl. rewrite Hcopy, Hf.
  destruct (opt_makePublic options).
  - unfold makePublic, setMetadata. simpl. rewrite (Hacl eq_refl).
    rewrite (file_put_key _ _ (indexKey_of options)) by reflexivity. simpl.
    rewrite (file_put_key _ _ (indexKey_of options)) by reflexivity.
    rewrite Hset. simpl. eexists _, _. split; [reflexivity |]. simpl.
    split; [now apply file_put_key |].
    split; [reflexivity |]. split; [reflexivity |].
    unfold listing. simpl. now rewrite !listing_put.
  - unfold setMetadata. simpl.
    rewrite (file_put_key _ _ (indexKey_of options)) by reflexivity.
    rewrite Hset. simpl. eexists _, _. split; [reflexivity |]. simpl.
    split; [now apply file_put_key |].
    split; [reflexivity |]. split; [reflexivity |].
    unfold listing. simpl. now rewrite !listing_put.
Qed.

(** ** The claims *)

(** C6. For all prefixes [p] and patterns [f], joining the empty prefix
    with [f] gives [f] itself, with no leading separator, and joining a
    non-empty [p] with [f] gives [p + "/" + f]. *)
Theorem joinUriSegments_spec (p f : string) :
  joinUriSegments "" f = f /\
  (p <> "" -> joinUriSegments p f = p +:+ "/" +:+ f).
Proof.
  split; [reflexivity |].
  intros Hp. unfold joinUriSegments.
  now destruct (String.eqb_spec p "").
Qed.

Lemma joinUriSegments_spec_witness :
  joinUriSegments "" "index.html" = "index.html" /\
  joinUriSegments "app" "index.html" = "app/index.html".
Proof.
  destruct (joinUriSegments_spec "app" "index.html") as [H0 H1].
  split; [exact H0 | apply H1; discriminate].
Defined.

(** C10. For every object the listing returns whose name begins with the
    revision prefix built by [joinUriSegments], the [revision] field of the
    corresponding element of the result round-trips: the revision prefix
    followed by that field is the object's name. The correspondence is by
    position in the sorted listing. *)
Theorem revision_round_trip (options : Options) (o : Oracle) (w w' : World)
    (revisions : list Revision) :
  fetchRevisions options o w = (Fulfilled revisions, w') ->
  Forall2
    (fun d r =>
       String.prefix (revisionPrefix_of options) (name d) = true ->
       revisionPrefix_of options +:+ revision r = name d)
    (JS.sort newest_first (listing options w)) revisions.
Proof.
  intros H. apply fetchRevisions_inv in H as (_ & _ & cur & _ & Hm).
  apply revisions_of_listing in Hm.
  eapply Forall2_impl; [exact Hm |].
  intros d r [-> _] Hp. now apply prefix_split.
Qed.

(** C9. The revisions a listing is fulfilled with are sorted by timestamp,
    newest first; their timestamps are those of the listed objects; and
    three objects stored at [t1 < t2 < t3] come back as [t3, t2, t1]. *)
Theorem fetchRevisions_newest_first (options : Options) (o : Oracle) (w w' : World)
    (revisions : list Revision) :
  fetchRevisions options o w = (Fulfilled revisions, w') ->
  StronglySorted (fun a b => timestamp b <= timestamp a) revisions /\
  Permutation (map timestamp revisions) (map updated (listing options w)) /\
  (forall d1 d2 d3,
      Permutation (listing options w) [d1; d2; d3] ->
      updated d1 < updated d2 < updated d3 ->
      map timestamp revisions = [updated d3; updated d2; updated d1]).
Proof.
  intros H. apply fetchRevisions_inv in H as (_ & _ & cur & _ & Hm).
  apply timestamps_of_listing in Hm.
  pose proof (sort_newest_first (listing options w)) as Hs.
  apply sorted_by_updated in Hs. rewrite <- Hm in Hs.
  assert (Hp : Permutation (map timestamp revisions) (map updated (listing options w))).
  { rewrite Hm. apply Permutation_map, sort_perm. }
  split; [now apply sorted_by_timestamp |].
  split; [exact Hp |].
  intros d1 d2 d3 H3 Ht.
  apply descending_three; [| exact Hs | exact Ht].
  rewrite Hp. now apply (Permutation_map updated) in H3.
Qed.

(** C3. When the listing already has a revision whose key is the given
    revisionKey and allowOverwrite is false, upload rejects with the
    "already uploaded" message, the bucket is as it was and no call other
    than the two reads of the listing was issued. When allowOverwrite is
    true or no listed revision has that key, the write proceeds: the write
    stream on the revision key is opened, and once the local file is read
    and the storage accepts the stream, upload is fulfilled and the object
    is stored. *)
Theorem upload_overwrite_guard (options : Options) (o : Oracle) (w w1 : World)
    (revisions : list Revision) :
  fetchRevisions options o w = (Fulfilled revisions, w1) ->
  (In (opt_revisionKey options) (map revision revisions) ->
   opt_allowOverwrite options = false ->
   upload options o w = (Rejected (Message already_uploaded), w1) /\
   bucket w1 = bucket w /\
   new_calls w w1 =
     [GetFiles (revisionPrefix_of options); GetMetadata (indexKey_of options)])
  /\
  (opt_allowOverwrite options = true \/
   ~ In (opt_revisionKey options) (map revision revisions) ->
   upload options o w =
     write_stream o (objectKey_of options) (opt_filePath options) (upload_params options o) w1 /\
   new_calls w (snd (upload options o w)) =
     [GetFiles (revisionPrefix_of options); GetMetadata (indexKey_of options);
      CreateWriteStream (objectKey_of options) (upload_params options o)] /\
   forall data,
     read_file o (opt_filePath options) = Some data ->
     write_error o = None ->
     fst (upload options o w) = Fulfilled tt /\
     exists f, file (bucket (snd (upload options o w))) (objectKey_of options) = Some f /\
               body f = data).
Proof.
  intros H. pose proof (upload_run _ _ _ _ _ H) as Hu.
  apply fetchRevisions_inv in H as (-> & _).
  split.
  - intros Hin Hov. apply array_indexOf_leb in Hin.
    rewrite Hin, Hov in Hu. simpl in Hu.
    split; [exact Hu |]. split; [reflexivity | apply after_reads_calls].
  - intros Hor.
    assert (Hc : (0 <=? JS.array_indexOf (map revision revisions) (opt_revisionKey options))
                 && negb (opt_allowOverwrite options) = false).
    { destruct Hor as [-> | Hn]; [apply andb_false_r |].
      apply andb_false_iff. left. apply not_true_iff_false.
      now rewrite array_indexOf_leb. }
    rewrite Hc in Hu. split; [exact Hu |].
    rewrite Hu. unfold write_stream. split.
    + apply new_calls_app.
      destruct (read_file o (opt_filePath options)); [destruct (write_error o) |];
        simpl; now rewrite <- !app_assoc.
    + intros data -> ->. simpl. split; [reflexivity |].
      eexists. split; [apply (file_put_same (mkFile (objectKey_of options) _ _ _ _ _)) | reflexivity].
Qed.

(** C4. When the revisionKey is not among the revisions the listing
    returned, activate rejects with the "revision not found" message; the
    bucket is as it was, the index object with it, and no call other than
    the two reads of the listing was issued: no copy, no metadata write, no
    ACL change. *)
Theorem activate_unknown_revision (options : Options) (o : Oracle) (w w1 : World)
    (revisions : list Revision) :
  fetchRevisions options o w = (Fulfilled revisions, w1) ->
  ~ In (opt_revisionKey options) (map revision revisions) ->
  activate options o w = (Rejected (Message not_found), w1) /\
  bucket w1 = bucket w /\
  file (bucket w1) (indexKey_of options) = file (bucket w) (indexKey_of options) /\
  new_calls w w1 =
    [GetFiles (revisionPrefix_of options); GetMetadata (indexKey_of options)] /\
  Forall (fun c => mutating c = false) (new_calls w w1).
Proof.
  intros H Hn. split; [now apply (activate_not_found _ _ _ _ revisions) |].
  apply fetchRevisions_inv in H as (-> & _).
  rewrite after_reads_calls. repeat split; try reflexivity.
  repeat constructor.
Qed.

(** C5. When the metadata fetch of the index object fails with a 404 reply
    and the listing itself succeeds, the failure is swallowed: the call is
    fulfilled, with one revision per listed object and none of them active.
    Any failure of the listing, and any failure of the metadata fetch that
    is not a 404 reply, rejects the call with the error of a storage call
    that failed. *)
Theorem fetchRevisions_failures (options : Options) (o : Oracle) (w : World) :
  (forall e code,
      getFiles_error o = None ->
      getMetadata_reply o (bucket w) (indexKey_of options) = MetadataFailed e code ->
      is_404 code = true ->
      exists revisions,
        fetchRevisions options o w = (Fulfilled revisions, after_reads options w) /\
        length revisions = length (listing options w) /\
        Forall (fun r => active r = None /\ is_active r = false) revisions)
  /\
  (forall e,
      getFiles_error o = Some e ->
      exists e',
        fst (fetchRevisions options o w) = Rejected (ApiError e') /\
        (e' = e \/
         exists code,
           getMetadata_reply o (bucket w) (indexKey_of options) = MetadataFailed e' code /\
           is_404 code = false))
  /\
  (forall e code,
      getMetadata_reply o (bucket w) (indexKey_of options) = MetadataFailed e code ->
      is_404 code = false ->
      exists e',
        fst (fetchRevisions options o w) = Rejected (ApiError e') /\
        (e' = e \/ getFiles_error o = Some e')).
Proof.
  split; [| split].
  - intros e code Hg Hm H404.
    rewrite (fetchRevisions_eval options o w None Hg)
      by (eapply current_absent; eassumption).
    rewrite mapM_no_current. eexists. split; [reflexivity |].
    split.
    + rewrite length_map. apply Permutation_length, sort_perm.
    + apply List.Forall_map. apply Forall_forall. now intros.
  - intros e Hg. rewrite fetchRevisions_run. unfold getFiles_result. rewrite Hg.
    destruct (getMetadata_reply o (bucket w) (indexKey_of options)) as [m|e' code] eqn:Hm;
      simpl.
    + exists e. split; [reflexivity | now left].
    + destruct (is_404 code) eqn:H404.
      * exists e. split; [reflexivity | now left].
      * destruct (current_first o).
        -- exists e'. split; [reflexivity | right; now exists code].
        -- exists e. split; [reflexivity | now left].
  - intros e code Hm H404. rewrite fetchRevisions_run, Hm. simpl. rewrite H404.
    unfold getFiles_result. destruct (getFiles_error o) as [e'|]; simpl.
    + destruct (current_first o).
      * exists e. split; [reflexivity | now left].
      * exists e'. split; [reflexivity | now right].
    + exists e. split; [reflexivity | now left].
Qed.

(** C7. Every write stream [upload] opens is on the revision key, with a
    contentType that is the mime type of filePath, or text/html when the
    lookup gives none, with cacheControl "max-age=0, no-cache", with the acl
    of the input as it is, and with gzip set exactly when filePattern occurs
    in gzippedFilePaths. When upload is fulfilled, such a stream was opened
    and the object stored under the revision key carries its metadata and is
    gzipped exactly when gzip was set. *)
Theorem upload_write_parameters (options : Options) (o : Oracle) (w : World) :
  (forall key params,
      In (CreateWriteStream key params) (new_calls w (snd (upload options o w))) ->
      key = objectKey_of options /\
      (forall t, mime_lookup o (opt_filePath options) = Some t -> t <> "" ->
                 fields (wp_metadata params) !! "contentType" = Some t) /\
      (mime_lookup o (opt_filePath options) = None ->
       fields (wp_metadata params) !! "contentType" = Some "text/html") /\
      fields (wp_metadata params) !! "cacheControl" = Some "max-age=0, no-cache" /\
      fields (wp_metadata params) !! "acl" = opt_acl options /\
      (wp_gzip params = Some true <->
       In (opt_filePattern options) (default [] (opt_gzippedFilePaths options))) /\
      (wp_gzip params = None <->
       ~ In (opt_filePattern options) (default [] (opt_gzippedFilePaths options))))
  /\
  (fst (upload options o w) = Fulfilled tt ->
   exists f params,
     In (CreateWriteStream (objectKey_of options) params)
        (new_calls w (snd (upload options o w))) /\
     file (bucket (snd (upload options o w))) (objectKey_of options) = Some f /\
     md f = wp_metadata params /\
     (gzipped f = true <-> wp_gzip params = Some true)).
Proof.
  split.
  - intros key params Hin.
    destruct (upload_calls options o w) as (tail & Hc & [-> | ->]);
      rewrite Hc in Hin; simpl in Hin;
      destruct Hin as [Hin | [Hin | Hin]]; try discriminate; try contradiction.
    destruct Hin as [Hin | []]. injection Hin as <- <-.
    split; [reflexivity | apply upload_params_spec].
  - unfold upload, then_, then2. rewrite fetchRevisions_run. cbv zeta.
    fold (objectKey_of options).
    generalize (upload_params options o) as params. intros params.
    unfold write_stream, plugin_log, reject, resolve, after_reads.
    repeat (case_match; simpl in * ); simplify_eq; try discriminate; intros _.
    all: eexists _, params.
    all: split;
      [rewrite (new_calls_app _ _ [_; _; _]) by (simpl; now rewrite <- !app_assoc);
       simpl; tauto |].
    all: split; [apply (file_put_same (mkFile (objectKey_of options) _ _ _ _ _)) |].
    all: simpl; split; [reflexivity |].
    all: now rewrite bool_decide_eq_true.
Qed.

(** C8. Every metadata write of [activate] is on the index object, with the
    caller's meta changed in two places only: cacheControl is
    "max-age=0, no-cache" when the caller's meta has none (a given value is
    kept), and metadata.revision is the given revisionKey whatever the
    caller gave; the other properties and custom keys are the caller's.
    The write is issued whenever the revision is listed, the copy succeeds
    and the make-public step is not requested or succeeds. *)
Theorem activate_written_metadata (options : Options) (o : Oracle) (w w1 : World)
    (revisions : list Revision) :
  let caller := default (mkMeta ∅ None) (opt_meta options) in
  (forall key meta,
      In (SetMetadata key meta) (new_calls w (snd (activate options o w))) ->
      key = indexKey_of options /\
      (forall v, fields caller !! "cacheControl" = Some v -> v <> "" ->
                 fields meta !! "cacheControl" = Some v) /\
      (fields caller !! "cacheControl" = None \/ fields caller !! "cacheControl" = Some "" ->
       fields meta !! "cacheControl" = Some "max-age=0, no-cache") /\
      (forall k, k <> "cacheControl" -> fields meta !! k = fields caller !! k) /\
      exists custom,
        metadata meta = Some custom /\
        custom !! "revision" = Some (opt_revisionKey options) /\
        forall k, k <> "revision" -> custom !! k = default ∅ (metadata caller) !! k)
  /\
  (fetchRevisions options o w = (Fulfilled revisions, w1) ->
   In (opt_revisionKey options) (map revision revisions) ->
   copy_error o = None ->
   (opt_makePublic options = true -> makePublic_error o = None) ->
   exists meta,
     In (SetMetadata (indexKey_of options) meta)
        (new_calls w (snd (activate options o w)))).
Proof.
  intros caller. split.
  - intros key meta Hin.
    destruct (activate_calls options o w) as (tail & Hc & Ht). rewrite Hc in Hin.
    assert (key = indexKey_of options /\ meta = activate_meta options) as [-> ->].
    { destruct Ht as [-> | [-> | [-> | [-> | ->]]]]; simpl in Hin;
        intuition (try discriminate); simplify_eq; auto. }
    split; [reflexivity | apply activate_meta_spec].
  - intros H Hin Hcopy Hacl.
    destruct (found_object _ _ _ _ _ H Hin) as [f Hf].
    apply array_indexOf_leb in Hin.
    exists (activate_meta options).
    unfold activate, then_, then2. rewrite H, Hin. cbv zeta.
    fold (objectKey_of options) (indexKey_of options).
    apply fetchRevisions_inv in H as (-> & _).
    unfold copyObject. simpl. rewrite Hcopy, Hf.
    destruct (opt_makePublic options).
    + unfold makePublic, setMetadata. simpl. rewrite (Hacl eq_refl).
      rewrite (file_put_key _ _ (indexKey_of options)) by reflexivity. simpl.
      rewrite (file_put_key _ _ (indexKey_of options)) by reflexivity.
      destruct (setMetadata_error o); simpl;
        rewrite (new_calls_app _ _ [_; _; _; _; _]) by (simpl; now rewrite <- !app_assoc);
        simpl; tauto.
    + unfold setMetadata. simpl.
      rewrite (file_put_key _ _ (indexKey_of options)) by reflexivity.
      destruct (setMetadata_error o); simpl;
        rewrite (new_calls_app _ _ [_; _; _; _]) by (simpl; now rewrite <- !app_assoc);
        simpl; tauto.
Qed.

(** The rejection callback of the make-public step, in general: when the
    listing has the revision and the copy succeeds, a failure of the
    make-public step is logged and the activate promise is fulfilled, with
    the make-public call as the last call and the index object the copy of
    the revision object, metadata included. *)
Theorem activate_makePublic_failure (options : Options) (o : Oracle) (w w1 : World)
    (revisions : list Revision) (e : string) :
  fetchRevisions options o w = (Fulfilled revisions, w1) ->
  In (opt_revisionKey options) (map revision revisions) ->
  copy_error o = None ->
  opt_makePublic options = true ->
  makePublic_error o = Some e ->
  exists f w',
    file (bucket w) (objectKey_of options) = Some f /\
    activate options o w = (Fulfilled tt, w') /\
    log w' = log w ++ [LoggedError (ApiError e)] /\
    new_calls w w' =
      [GetFiles (revisionPrefix_of options); GetMetadata (indexKey_of options);
       Copy (objectKey_of options) (indexKey_of options);
       MakePublic (indexKey_of options)] /\
    file (bucket w') (indexKey_of options) =
      Some (mkFile (indexKey_of options) (body f) (md f) (now o) (gzipped f) false).
Proof.
  intros H Hin Hcopy Hpub Hacl.
  destruct (found_object _ _ _ _ _ H Hin) as [f Hf]. exists f.
  apply array_indexOf_leb in Hin.
  unfold activate, then_, then2. rewrite H, Hin, Hpub. cbv zeta.
  fold (objectKey_of options) (indexKey_of options).
  apply fetchRevisions_inv in H as (-> & _).
  unfold copyObject, makePublic. simpl. rewrite Hcopy, Hf, Hacl. simpl.
  eexists. split; [reflexivity |]. split; [reflexivity |]. simpl.
  split; [reflexivity |].
  split; [apply new_calls_app; simpl; now rewrite <- !app_assoc |].
  now apply file_put_key.
Qed.

(** C2 (as the code has it). After an activation of a listed revisionKey
    whose storage calls succeed, the index object's metadata.revision is
    that key, and a following listing that succeeds reports the same
    revision keys, the activated one among them and active, and reports a
    revision active exactly when the key occurs in its object's name,
    which holds for the activated revision and for any other whose name
    contains the key. *)
Theorem activate_then_fetchRevisions (options : Options) (o o2 : Oracle) (w w1 : World)
    (revisions : list Revision) :
  fetchRevisions options o w = (Fulfilled revisions, w1) ->
  In (opt_revisionKey options) (map revision revisions) ->
  copy_error o = None ->
  setMetadata_error o = None ->
  (opt_makePublic options = true -> makePublic_error o = None) ->
  getFiles_error o2 = None ->
  getMetadata_error o2 = None ->
  exists w' g custom revisions',
    activate options o w = (Fulfilled tt, w') /\
    file (bucket w') (indexKey_of options) = Some g /\
    metadata (md g) = Some custom /\
    custom !! "revision" = Some (opt_revisionKey options) /\
    fetchRevisions options o2 w' = (Fulfilled revisions', after_reads options w') /\
    map revision revisions' = map revision revisions /\
    (forall r, In r revisions' -> revision r = opt_revisionKey options ->
               active r = Some true) /\
    (forall r, In r revisions' ->
       exists b, active r = Some b /\
         (b = true <->
          exists s1 s2, revisionPrefix_of options +:+ revision r =
                        s1 +:+ opt_revisionKey options +:+ s2)).
Proof.
  intros H Hin Hcopy Hset Hacl Hg2 Hm2.
  destruct (found_object _ _ _ _ _ H Hin) as [f Hf].
  destruct (activate_success _ _ _ _ _ _ H Hin Hf Hcopy Hset Hacl)
    as (w' & g & Hact & Hg & _ & Hmd & Hl).
  destruct (activate_meta_spec options) as (_ & _ & _ & c & Hc & Hrev & _).
  set (custom := c ∪ default ∅ (metadata (md f))).
  assert (Hcustom : metadata (md g) = Some custom).
  { rewrite Hmd. unfold patch. cbn [metadata]. now rewrite Hc. }
  assert (Hrk : custom !! "revision" = Some (opt_revisionKey options)).
  { now apply lookup_union_Some_l. }
  assert (Hcur : current_is o2 (bucket w') (indexKey_of options) (Some (md g))).
  { constructor. unfold getMetadata_reply. now rewrite Hm2, Hg. }
  pose proof (fetchRevisions_eval options o2 w' _ Hg2 Hcur) as Hfetch.
  rewrite (mapM_with_current _ _ _ _ _ Hcustom Hrk), Hl in Hfetch.
  apply fetchRevisions_inv in H as (_ & _ & cur & _ & Hmap).
  apply revision_keys_of_listing in Hmap.
  assert (Hspec : forall r,
    In r (map (fun d => mkRevision
                 (JS.substr (name d) (String.length (revisionPrefix_of options)))
                 (updated d)
                 (Some (0 <=? JS.indexOf (name d) (opt_revisionKey options))))
              (JS.sort newest_first (listing options w))) ->
    active r = Some (0 <=? JS.indexOf (revisionPrefix_of options +:+ revision r)
                                      (opt_revisionKey options))).
  { intros r Hr. apply in_map_iff in Hr as (d & <- & Hd).
    apply listed_name in Hd as [Hn _]. simpl. now rewrite <- Hn. }
  exists w', g, custom. eexists.
  split; [exact Hact |]. split; [exact Hg |]. split; [exact Hcustom |].
  split; [exact Hrk |]. split; [exact Hfetch |].
  split; [| split].
  - rewrite Hmap, map_map. reflexivity.
  - intros r Hr Heq. rewrite (Hspec r Hr), Heq. f_equal.
    apply Z.leb_le, indexOf_found. exists (revisionPrefix_of options), "".
    now rewrite append_empty_r.
  - intros r Hr. eexists. split; [exact (Hspec r Hr) |].
    now rewrite Z.leb_le, indexOf_found.
Qed.

Lemma revision_round_trip_witness :
  Forall2
    (fun d r =>
       String.prefix "app/index.html:" (name d) = true ->
       "app/index.html:" +:+ revision r = name d)
    [ revision_object "app/index.html:abcd" 20;
      revision_object "app/index.html:zz" 15;
      revision_object "app/index.html:abc" 10 ]
    sample_revisions.
Proof.
  apply (revision_round_trip (sample_options "abc" false) calm sample_world
           (after_reads (sample_options "abc" false) sample_world)).
  vm_compute. reflexivity.
Defined.

Lemma fetchRevisions_newest_first_witness :
  StronglySorted (fun a b => timestamp b <= timestamp a) sample_revisions /\
  map timestamp sample_revisions = [20; 15; 10].
Proof.
  destruct (fetchRevisions_newest_first (sample_options "abc" false) calm sample_world
              (after_reads (sample_options "abc" false) sample_world)
              sample_revisions) as (Hs & _ & H3).
  - vm_compute. reflexivity.
  - split; [exact Hs |].
    apply (H3 (revision_object "app/index.html:abc" 10)
              (revision_object "app/index.html:zz" 15)
              (revision_object "app/index.html:abcd" 20)).
    + vm_compute. apply perm_skip, perm_swap.
    + simpl. lia.
Defined.

Lemma upload_overwrite_guard_witness :
  (upload (sample_options "abc" false) calm sample_world =
     (Rejected (Message already_uploaded),
      after_reads (sample_options "abc" false) sample_world) /\
   bucket (after_reads (sample_options "abc" false) sample_world) = bucket sample_world)
  /\
  new_calls sample_world (snd (upload (sample_options "new" false) calm sample_world)) =
    [GetFiles "app/index.html:"; GetMetadata "app/index.html";
     CreateWriteStream "app/index.html:new" (upload_params (sample_options "new" false) calm)].
Proof.
  split.
  - destruct (upload_overwrite_guard (sample_options "abc" false) calm sample_world
                (after_reads (sample_options "abc" false) sample_world)
                sample_revisions) as [H _]; [vm_compute; reflexivity |].
    destruct H as (Hu & Hb & _); [simpl; tauto | reflexivity |].
    split; [exact Hu | exact Hb].
  - destruct (upload_overwrite_guard (sample_options "new" false) calm sample_world
                (after_reads (sample_options "new" false) sample_world)
                sample_revisions) as [_ H]; [vm_compute; reflexivity |].
    destruct H as (_ & Hc & _); [| exact Hc].
    right. simpl. intros [H | [H | [H | []]]]; discriminate.
Defined.

Lemma activate_unknown_revision_witness :
  activate (sample_options "nope" false) calm sample_world =
    (Rejected (Message not_found),
     after_reads (sample_options "nope" false) sample_world) /\
  file (bucket (after_reads (sample_options "nope" false) sample_world)) "app/index.html"
  = file (bucket sample_world) "app/index.html".
Proof.
  destruct (activate_unknown_revision (sample_options "nope" false) calm sample_world
              (after_reads (sample_options "nope" false) sample_world)
              sample_revisions) as (Ha & _ & Hi & _).
  - vm_compute. reflexivity.
  - simpl. intros [H | [H | [H | []]]]; discriminate.
  - split; [exact Ha | exact Hi].
Defined.

Lemma fetchRevisions_failures_witness :
  (exists revisions,
      fetchRevisions (sample_options "abc" false) calm sample_world =
        (Fulfilled revisions, after_reads (sample_options "abc" false) sample_world) /\
      length revisions = 3%nat /\
      Forall (fun r => active r = None /\ is_active r = false) revisions)
  /\
  (exists e',
      fst (fetchRevisions (sample_options "abc" false) listing_down sample_world) =
        Rejected (ApiError e') /\
      (e' = "ECONNRESET" \/
       exists code,
         getMetadata_reply listing_down (bucket sample_world) "app/index.html" =
           MetadataFailed e' code /\ is_404 code = false))
  /\
  (exists e',
      fst (fetchRevisions (sample_options "abc" false) metadata_refused sample_world) =
        Rejected (ApiError e') /\
      (e' = "Forbidden" \/ getFiles_error metadata_refused = Some e')).
Proof.
  split; [| split].
  - destruct (fetchRevisions_failures (sample_options "abc" false) calm sample_world)
      as (H & _ & _).
    apply (H "Not Found" (Some 404)); reflexivity.
  - destruct (fetchRevisions_failures (sample_options "abc" false) listing_down sample_world)
      as (_ & H & _).
    apply (H "ECONNRESET"). reflexivity.
  - destruct (fetchRevisions_failures (sample_options "abc" false) metadata_refused sample_world)
      as (_ & _ & H).
    apply (H "Forbidden" (Some 403)); reflexivity.
Defined.

Lemma upload_write_parameters_witness :
  (fields (wp_metadata (upload_params (sample_options "new" false) calm)) !! "contentType"
     = Some "text/html" /\
   wp_gzip (upload_params (sample_options "new" false) calm) = Some true)
  /\
  exists f params,
    In (CreateWriteStream "app/index.html:new" params)
       (new_calls sample_world (snd (upload (sample_options "new" false) calm sample_world))) /\
    file (bucket (snd (upload (sample_options "new" false) calm sample_world)))
         "app/index.html:new" = Some f /\
    md f = wp_metadata params /\
    (gzipped f = true <-> wp_gzip params = Some true).
Proof.
  destruct (upload_write_parameters (sample_options "new" false) calm sample_world)
    as [H1 H2].
  split.
  - destruct (H1 "app/index.html:new" (upload_params (sample_options "new" false) calm))
      as (_ & Hct & _ & _ & _ & Hgz & _).
    + vm_compute. right. right. left. reflexivity.
    + split.
      * apply Hct; [reflexivity | discriminate].
      * apply Hgz. simpl. tauto.
  - apply H2. vm_compute. reflexivity.
Defined.

Lemma activate_written_metadata_witness :
  (exists custom,
      metadata (activate_meta (sample_options "abc" false)) = Some custom /\
      custom !! "revision" = Some "abc" /\
      forall k, k <> "revision" -> custom !! k = (∅ : gmap string string) !! k)
  /\
  exists meta,
    In (SetMetadata "app/index.html" meta)
       (new_calls sample_world (snd (activate (sample_options "abc" false) calm sample_world))).
Proof.
  destruct (activate_written_metadata (sample_options "abc" false) calm sample_world
              (after_reads (sample_options "abc" false) sample_world) sample_revisions)
    as [H1 H2].
  split.
  - destruct (H1 "app/index.html" (activate_meta (sample_options "abc" false)))
      as (_ & _ & _ & _ & Hc).
    + vm_compute. right. right. right. left. reflexivity.
    + exact Hc.
  - apply H2.
    + vm_compute. reflexivity.
    + simpl. tauto.
    + reflexivity.
    + intros _. reflexivity.
Defined.

Lemma activate_makePublic_failure_witness :
  exists f w',
    file (bucket sample_world) "app/index.html:abc" = Some f /\
    activate (sample_options "abc" true) acl_refused sample_world = (Fulfilled tt, w') /\
    log w' = [LoggedError (ApiError "Forbidden")] /\
    new_calls sample_world w' =
      [GetFiles "app/index.html:"; GetMetadata "app/index.html";
       Copy "app/index.html:abc" "app/index.html"; MakePublic "app/index.html"] /\
    file (bucket w') "app/index.html" =
      Some (mkFile "app/index.html" (body f) (md f) 1000 (gzipped f) false).
Proof.
  apply (activate_makePublic_failure (sample_options "abc" true) acl_refused sample_world
           (after_reads (sample_options "abc" true) sample_world) sample_revisions
           "Forbidden").
  - vm_compute. reflexivity.
  - simpl. tauto.
  - reflexivity.
  - reflexivity.
  - reflexivity.
Defined.

(** The statement of an activation that goes on to the metadata write
    after a failed make-public step does not hold of the code: on the
    sample, with the make-public call refused, the activation is fulfilled
    and the refusal logged, but no metadata write is issued and the index
    object carries no revision. *)
Lemma activate_makePublic_failure_counterexample :
  ~ (forall (options : Options) (o : Oracle) (w w1 : World)
            (revisions : list Revision) (e : string),
        fetchRevisions options o w = (Fulfilled revisions, w1) ->
        In (opt_revisionKey options) (map revision revisions) ->
        copy_error o = None ->
        opt_makePublic options = true ->
        makePublic_error o = Some e ->
        fst (activate options o w) = Fulfilled tt /\
        In (LoggedError (ApiError e)) (log (snd (activate options o w))) /\
        ((exists meta,
             In (SetMetadata (indexKey_of options) meta)
                (new_calls w (snd (activate options o w)))) \/
         (exists g custom,
             file (bucket (snd (activate options o w))) (indexKey_of options) = Some g /\
             metadata (md g) = Some custom /\
             custom !! "revision" = Some (opt_revisionKey options)))).
Proof.
  intros H.
  destruct (H (sample_options "abc" true) acl_refused sample_world
              (after_reads (sample_options "abc" true) sample_world) sample_revisions
              "Forbidden")
    as (_ & _ & [(meta & Hin) | (g & custom & Hg & Hm & _)]).
  - vm_compute. reflexivity.
  - simpl. tauto.
  - reflexivity.
  - reflexivity.
  - reflexivity.
  - vm_compute in Hin.
    repeat (destruct Hin as [Hin | Hin]; [discriminate |]). exact Hin.
  - vm_compute in Hg. injection Hg as <-. discriminate Hm.
Qed.

(** C1. The code departs from the claim. On the sample, activating [abc]
    with makePublic set while the make-public call is refused, the promise
    is fulfilled and the refusal logged, as the claim says; but the
    activation does not go on to the metadata write that the stamped meta
    was built for and that both other fulfilled paths make: the make-public
    call is the last call, the index object is left without custom
    metadata, hence without the revision stamp, and the next listing is
    rejected with a TypeError. *)
Theorem activate_makePublic_failure_on_sample :
  fst (activate (sample_options "abc" true) acl_refused sample_world) = Fulfilled tt /\
  log (snd (activate (sample_options "abc" true) acl_refused sample_world)) =
    [LoggedError (ApiError "Forbidden")] /\
  new_calls sample_world (snd (activate (sample_options "abc" true) acl_refused sample_world)) =
    [GetFiles "app/index.html:"; GetMetadata "app/index.html";
     Copy "app/index.html:abc" "app/index.html"; MakePublic "app/index.html"] /\
  (exists g,
      file (bucket (snd (activate (sample_options "abc" true) acl_refused sample_world)))
           "app/index.html" = Some g /\
      body g = "<html></html>" /\
      metadata (md g) = None) /\
  fst (fetchRevisions (sample_options "abc" true) calm
         (snd (activate (sample_options "abc" true) acl_refused sample_world)))
  = Rejected TypeError.
Proof.
  split; [vm_compute; reflexivity |].
  split; [vm_compute; reflexivity |].
  split; [vm_compute; reflexivity |].
  split; [| vm_compute; reflexivity].
  eexists. split; [vm_compute; reflexivity |]. split; reflexivity.
Qed.

Lemma activate_then_fetchRevisions_witness :
  exists w' g custom revisions',
    activate (sample_options "abc" false) calm sample_world = (Fulfilled tt, w') /\
    file (bucket w') "app/index.html" = Some g /\
    metadata (md g) = Some custom /\
    custom !! "revision" = Some "abc" /\
    fetchRevisions (sample_options "abc" false) calm w' =
      (Fulfilled revisions', after_reads (sample_options "abc" false) w') /\
    map revision revisions' = ["abcd"; "zz"; "abc"] /\
    (forall r, In r revisions' -> revision r = "abc" -> active r = Some true) /\
    (forall r, In r revisions' ->
       exists b, active r = Some b /\
         (b = true <->
          exists s1 s2, "app/index.html:" +:+ revision r = s1 +:+ "abc" +:+ s2)).
Proof.
  apply (activate_then_fetchRevisions (sample_options "abc" false) calm calm sample_world
           (after_reads (sample_options "abc" false) sample_world) sample_revisions).
  - vm_compute. reflexivity.
  - simpl. tauto.
  - reflexivity.
  - reflexivity.
  - intros _. reflexivity.
  - reflexivity.
  - reflexivity.
Defined.

(** C2, as the spec states it, fails: on the sample, after activating
    [abc], the listing reports revision [abcd] active as well, since [abc]
    occurs in its object's name. *)
Lemma activate_then_fetchRevisions_counterexample :
  ~ (forall (options : Options) (o o2 : Oracle) (w w' w'' : World)
            (revisions : list Revision),
        activate options o w = (Fulfilled tt, w') ->
        fetchRevisions options o2 w' = (Fulfilled revisions, w'') ->
        (exists g custom,
            file (bucket w') (indexKey_of options) = Some g /\
            metadata (md g) = Some custom /\
            custom !! "revision" = Some (opt_revisionKey options)) /\
        (forall r, In r revisions ->
                   (is_active r = true <-> revision r = opt_revisionKey options))).
Proof.
  intros H.
  destruct (H (sample_options "abc" false) calm calm sample_world
              (snd (activate (sample_options "abc" false) calm sample_world))
              (after_reads (sample_options "abc" false)
                 (snd (activate (sample_options "abc" false) calm sample_world)))
              [ mkRevision "abcd" 20 (Some true); mkRevision "zz" 15 (Some false);
                mkRevision "abc" 10 (Some true) ])
    as [_ Hr].
  - vm_compute. reflexivity.
  - vm_compute. reflexivity.
  - destruct (Hr (mkRevision "abcd" 20 (Some true))) as [Habcd _]; [simpl; tauto |].
    specialize (Habcd eq_refl). discriminate Habcd.
Qed.

(** * Further properties of the adapter *)

(** ** Helper facts *)

Lemma substr_append (p s : string) : JS.substr (p +:+ s) (String.length p) = s.
Proof. induction p as [|x p IH]; simpl; [reflexivity | exact IH]. Qed.

Lemma Forall2_In_l {A B : Type} (R : A -> B -> Prop) (l : list A) (k : list B) (x : A) :
  Forall2 R l k -> In x l -> exists y, In y k /\ R x y.
Proof.
  induction 1 as [|x' y l k Hxy _ IH]; simpl; [tauto |].
  intros [<- | Hin]; [exists y; auto |].
  destruct (IH Hin) as (y' & Hy' & HR). exists y'. auto.
Qed.

Lemma file_In (b : list File) (key : string) (f : File) :
  file b key = Some f -> In f b /\ name f = key.
Proof.
  intros H. apply List.find_some in H as [Hin H]. split; [exact Hin | now apply named_eq].
Qed.

Lemma file_put_other (f : File) (b : list File) (key : string) :
  name f <> key -> file (put f b) key = file b key.
Proof.
  intros Hne. rewrite file_put. now destruct (String.eqb_spec (name f) key).
Qed.

Lemma objectKey_split (options : Options) :
  objectKey_of options = revisionPrefix_of options +:+ opt_revisionKey options.
Proof. apply revisionKey_split. Qed.

Lemma objectKey_not_indexKey (options : Options) :
  objectKey_of options <> indexKey_of options.
Proof.
  intros H. apply (f_equal String.length) in H.
  rewrite objectKey_split, revisionPrefix_split, !append_length in H. simpl in H. lia.
Qed.

(** With an index object that has custom metadata, every listed object
    becomes a revision; [active] tests the name for the text of the
    [revision] key, which is "undefined" when the key is missing. *)
Lemma mapM_with_custom (rp : string) (m : Meta) (custom : gmap string string)
    (files : list File) :
  metadata m = Some custom ->
  mapM (to_revision rp (Some m)) files =
  Some (map (fun d => mkRevision (JS.substr (name d) (String.length rp)) (updated d)
                        (Some (0 <=? JS.indexOf (name d)
                                       (JS.to_string (custom !! "revision"))))) files).
Proof.
  intros Hm. apply mapM_Some.
  induction files as [|d files IH]; simpl; constructor; [| exact IH].
  unfold to_revision. now rewrite Hm.
Qed.

Lemma mapM_without_custom (rp : string) (m : Meta) (files : list File) :
  metadata m = None -> files <> [] -> mapM (to_revision rp (Some m)) files = None.
Proof.
  intros Hm Hne. destruct (mapM (to_revision rp (Some m)) files) as [k|] eqn:Hk;
    [| reflexivity].
  apply mapM_Some in Hk. destruct Hk as [|d r files k Hd _]; [congruence |].
  unfold to_revision in Hd. rewrite Hm in Hd. discriminate.
Qed.

Lemma sort_nonempty (l : list File) : l <> [] -> JS.sort newest_first l <> [].
Proof.
  intros Hne Hs. apply Hne. apply Permutation_nil.
  rewrite <- Hs. apply sort_perm.
Qed.

(** ** fetchRevisions *)

(** X1. Whatever its outcome, [fetchRevisions] only reads: the bucket and
    the log are as before, and the calls issued are the listing of the
    revision prefix followed by the metadata fetch of the index key, both
    of them even when the first fails. *)
Theorem fetchRevisions_only_reads (options : Options) (o : Oracle) (w : World) :
  bucket (snd (fetchRevisions options o w)) = bucket w /\
  log (snd (fetchRevisions options o w)) = log w /\
  new_calls w (snd (fetchRevisions options o w)) =
    [GetFiles (revisionPrefix_of options); GetMetadata (indexKey_of options)].
Proof.
  rewrite fetchRevisions_run. simpl.
  split; [reflexivity |]. split; [reflexivity |]. apply after_reads_calls.
Qed.

(** X2. When no object is listed under the revision prefix and neither
    storage call fails (a 404 reply for the index object aside), the
    listing is fulfilled with the empty array, whether the index object is
    absent or present, with or without custom metadata. *)
Theorem fetchRevisions_no_revisions (options : Options) (o : Oracle) (w : World)
    (cur : option Meta) :
  getFiles_error o = None ->
  current_is o (bucket w) (indexKey_of options) cur ->
  listing options w = [] ->
  fetchRevisions options o w = (Fulfilled [], after_reads options w).
Proof.
  intros Hg Hc Hl. rewrite (fetchRevisions_eval options o w cur Hg Hc), Hl.
  reflexivity.
Qed.

(** X3. When the index object exists but has no custom metadata and at
    least one revision object is listed, reading [metadata.revision] throws
    in the [then] callback: the listing is rejected with a TypeError. *)
Theorem fetchRevisions_index_without_metadata (options : Options) (o : Oracle)
    (w : World) (m : Meta) :
  getFiles_error o = None ->
  getMetadata_reply o (bucket w) (indexKey_of options) = MetadataOk m ->
  metadata m = None ->
  listing options w <> [] ->
  fetchRevisions options o w = (Rejected TypeError, after_reads options w).
Proof.
  intros Hg Hr Hm Hl.
  rewrite (fetchRevisions_eval options o w (Some m) Hg) by now constructor.
  rewrite mapM_without_custom; [reflexivity | exact Hm | now apply sort_nonempty].
Qed.

(** X4. When the index object has custom metadata without a [revision]
    key, [indexOf] is given undefined and searches for the text
    "undefined": the listing is fulfilled and a revision is reported active
    exactly when that text occurs in its object's name. *)
Theorem fetchRevisions_unstamped_index (options : Options) (o : Oracle)
    (w : World) (m : Meta) (custom : gmap string string) :
  getFiles_error o = None ->
  getMetadata_reply o (bucket w) (indexKey_of options) = MetadataOk m ->
  metadata m = Some custom ->
  custom !! "revision" = None ->
  exists revisions,
    fetchRevisions options o w = (Fulfilled revisions, after_reads options w) /\
    forall r, In r revisions ->
      exists b, active r = Some b /\
        (b = true <->
         exists s1 s2, revisionPrefix_of options +:+ revision r =
                       s1 +:+ "undefined" +:+ s2).
Proof.
  intros Hg Hr Hm Hc.
  rewrite (fetchRevisions_eval options o w (Some m) Hg) by now constructor.
  rewrite (mapM_with_custom _ _ _ _ Hm), Hc. eexists. split; [reflexivity |].
  intros r Hin. apply in_map_iff in Hin as (d & <- & Hd).
  apply listed_name in Hd as [Hn _]. simpl. rewrite <- Hn.
  eexists. split; [reflexivity |]. now rewrite Z.leb_le, indexOf_found.
Qed.

(** ** Keys *)

(** X5. The key [upload] writes under and [activate] copies from is the
    revision prefix of [fetchRevisions] followed by the revisionKey, so the
    listing lists it and [substr] decodes it back to the revisionKey. *)
Theorem objectKey_round_trip (options : Options) :
  objectKey_of options = revisionPrefix_of options +:+ opt_revisionKey options /\
  String.prefix (revisionPrefix_of options) (objectKey_of options) = true /\
  JS.substr (objectKey_of options) (String.length (revisionPrefix_of options))
  = opt_revisionKey options.
Proof.
  rewrite objectKey_split. split; [reflexivity |].
  split; [apply prefix_append | apply substr_append].
Qed.

(** X6. The index object is never among the objects the listing call of
    [fetchRevisions] answers: the index key does not start with the
    revision prefix. *)
Theorem index_object_not_listed (options : Options) (o : Oracle) (w w' : World)
    (files : list File) :
  getFiles o (revisionPrefix_of options) w = (Fulfilled files, w') ->
  Forall (fun d => name d <> indexKey_of options) files.
Proof.
  unfold getFiles, getFiles_result. destruct (getFiles_error o); [discriminate |].
  intros [= <- _]. apply Forall_forall. intros d Hd Hn.
  apply list_elem_of_In, List.filter_In in Hd as [_ Hp].
  rewrite (index_not_listed options d Hn) in Hp. discriminate.
Qed.

(** ** upload *)

(** A fulfilled [upload], taken apart. *)
Lemma upload_fulfilled_inv (options : Options) (o : Oracle) (w w' : World) :
  upload options o w = (Fulfilled tt, w') ->
  exists revisions data,
    fetchRevisions options o w = (Fulfilled revisions, after_reads options w) /\
    read_file o (opt_filePath options) = Some data /\
    write_error o = None /\
    log w' = log w ++ [Logged ("✔  " +:+ objectKey_of options) true] /\
    bucket w' =
      put (mkFile (objectKey_of options) data (wp_metadata (upload_params options o))
             (now o) (bool_decide (wp_gzip (upload_params options o) = Some true)) false)
          (bucket w).
Proof.
  unfold upload, then_, then2. cbv zeta. fold (objectKey_of options).
  generalize (upload_params options o) as params. intros params.
  destruct (fetchRevisions options o w) as [[revisions|r|] w1] eqn:Hf;
    try discriminate.
  apply fetchRevisions_inv in Hf as Hinv. destruct Hinv as (-> & _).
  destruct (_ && _); [discriminate |]. unfold resolve, write_stream.
  destruct (read_file o (opt_filePath options)) as [data|]; [| discriminate].
  destruct (write_error o); [discriminate |].
  unfold plugin_log. intros [= <-]. exists revisions, data. simpl. auto.
Qed.

Lemma objectKey_round_trip_facts (options : Options) :
  String.prefix (revisionPrefix_of options) (objectKey_of options) = true /\
  JS.substr (objectKey_of options) (String.length (revisionPrefix_of options))
  = opt_revisionKey options.
Proof.
  rewrite objectKey_split. split; [apply prefix_append | apply substr_append].
Qed.

Lemma listed_revision (options : Options) (o : Oracle) (w w' : World)
    (revisions : list Revision) (f : File) :
  fetchRevisions options o w = (Fulfilled revisions, w') ->
  In f (bucket w) ->
  name f = objectKey_of options ->
  In (opt_revisionKey options) (map revision revisions).
Proof.
  intros H Hin Hn. apply fetchRevisions_inv in H as (_ & _ & cur & _ & Hm).
  apply revisions_of_listing in Hm.
  destruct (objectKey_round_trip_facts options) as [Hp Hs].
  assert (Hl : In f (JS.sort newest_first (listing options w))).
  { eapply Permutation_in; [symmetry; apply sort_perm |].
    apply List.filter_In. split; [exact Hin |]. unfold has_prefix. now rewrite Hn. }
  destruct (Forall2_In_l _ _ _ _ Hm Hl) as (r & Hr & Hrev & _).
  apply in_map_iff. exists r. split; [| exact Hr]. now rewrite Hrev, Hn.
Qed.

(** X7. After a fulfilled upload of a revisionKey, every following listing
    that is fulfilled lists that revisionKey; a second upload of it with
    allowOverwrite false is then rejected with the "already uploaded"
    message and leaves the bucket, the first object included, as it is. *)
Theorem upload_twice_rejected (options : Options) (o o2 : Oracle) (w w' w'' : World)
    (revisions : list Revision) :
  upload options o w = (Fulfilled tt, w') ->
  fetchRevisions options o2 w' = (Fulfilled revisions, w'') ->
  In (opt_revisionKey options) (map revision revisions) /\
  (opt_allowOverwrite options = false ->
   upload options o2 w' = (Rejected (Message already_uploaded), w'') /\
   bucket w'' = bucket w').
Proof.
  intros Hu Hf.
  apply upload_fulfilled_inv in Hu as (_ & data & _ & _ & _ & _ & Hb).
  assert (Hin : In (opt_revisionKey options) (map revision revisions)).
  { set (f := mkFile (objectKey_of options) data (wp_metadata (upload_params options o))
                 (now o) (bool_decide (wp_gzip (upload_params options o) = Some true))
                 false) in Hb.
    apply (listed_revision options o2 w' w'' revisions f Hf); [| reflexivity].
    rewrite Hb. apply (file_In _ (objectKey_of options)). now apply file_put_key. }
  split; [exact Hin |].
  intros Hov. rewrite (upload_run _ _ _ _ _ Hf).
  apply array_indexOf_leb in Hin. rewrite Hin, Hov. simpl.
  split; [reflexivity |].
  apply fetchRevisions_inv in Hf as (-> & _). reflexivity.
Qed.

(** X8. Whatever its outcome, [upload] leaves every object other than the
    one under the revision key as it was; the index object in particular. *)
Theorem upload_frame (options : Options) (o : Oracle) (w : World) (key : string) :
  key <> objectKey_of options ->
  file (bucket (snd (upload options o w))) key = file (bucket w) key.
Proof.
  intros Hne. unfold upload, then_, then2. rewrite fetchRevisions_run. cbv zeta.
  fold (objectKey_of options).
  generalize (upload_params options o) as params. intros params.
  unfold write_stream, plugin_log, reject, resolve, after_reads.
  repeat (case_match; simpl in * ); simplify_eq; try reflexivity.
  all: apply file_put_other; simpl; congruence.
Qed.

(** X9. Whatever its outcome, [upload] issues the two reads of the listing
    and then at most one call, the opening of the write stream on the
    revision key: it never copies, changes an ACL or sets metadata. *)
Theorem upload_trace (options : Options) (o : Oracle) (w : World) :
  exists tail,
    new_calls w (snd (upload options o w)) =
      GetFiles (revisionPrefix_of options) :: GetMetadata (indexKey_of options) :: tail /\
    (tail = [] \/
     tail = [CreateWriteStream (objectKey_of options) (upload_params options o)]).
Proof. apply upload_calls. Qed.

(** X10. When the listing step is rejected, [upload] and [activate] are
    rejected with the same reason right after the two reads: nothing is
    written, copied or logged. *)
Theorem failed_listing_aborts (options : Options) (o : Oracle) (w w1 : World)
    (r : Reason) :
  fetchRevisions options o w = (Rejected r, w1) ->
  upload options o w = (Rejected r, w1) /\
  activate options o w = (Rejected r, w1) /\
  bucket w1 = bucket w /\ log w1 = log w /\
  new_calls w w1 =
    [GetFiles (revisionPrefix_of options); GetMetadata (indexKey_of options)].
Proof.
  intros H. unfold upload, activate, then_, then2. rewrite H. simpl.
  split; [reflexivity |]. split; [reflexivity |].
  rewrite fetchRevisions_run in H. injection H as _ <-.
  split; [reflexivity |]. split; [reflexivity |]. apply after_reads_calls.
Qed.

(** X11. When the listing has the revision and the local file is read but
    the storage fails the write stream, [upload] is rejected with that
    error; when the local file cannot be read, the promise never settles,
    the listeners being on the write stream only. Either way the write
    stream was opened and the bucket is as it was. *)
Theorem upload_stream_failure (options : Options) (o : Oracle) (w w1 : World)
    (revisions : list Revision) :
  fetchRevisions options o w = (Fulfilled revisions, w1) ->
  opt_allowOverwrite options = true \/
  ~ In (opt_revisionKey options) (map revision revisions) ->
  let opened :=
    issue (CreateWriteStream (objectKey_of options) (upload_params options o)) w1 in
  (forall data e,
      read_file o (opt_filePath options) = Some data ->
      write_error o = Some e ->
      upload options o w = (Rejected (ApiError e), opened))
  /\
  (read_file o (opt_filePath options) = None ->
   upload options o w = (Pending, opened))
  /\ bucket opened = bucket w /\ log opened = log w.
Proof.
  intros H Hor opened. rewrite (upload_run _ _ _ _ _ H).
  assert (Hc : (0 <=? JS.array_indexOf (map revision revisions) (opt_revisionKey options))
               && negb (opt_allowOverwrite options) = false).
  { destruct Hor as [-> | Hn]; [apply andb_false_r |].
    apply andb_false_iff. left. apply not_true_iff_false.
    now rewrite array_indexOf_leb. }
  rewrite Hc. unfold write_stream.
  apply fetchRevisions_inv in H as (-> & _).
  split; [| split; [| split; reflexivity]].
  - intros data e -> ->. reflexivity.
  - intros ->. reflexivity.
Qed.

(** ** activate *)

(** X12. Whatever its outcome, [activate] leaves every object other than
    the index object as it was, so the revision objects and the listing of
    revisions are untouched. *)
Theorem activate_frame (options : Options) (o : Oracle) (w : World) :
  (forall key, key <> indexKey_of options ->
     file (bucket (snd (activate options o w))) key = file (bucket w) key) /\
  listing options (snd (activate options o w)) = listing options w.
Proof.
  unfold listing, activate, then_, then2. rewrite fetchRevisions_run. cbv zeta.
  fold (objectKey_of options) (indexKey_of options).
  generalize (activate_meta options) as meta. intros meta.
  unfold copyObject, makePublic, setMetadata, plugin_log, reject, after_reads.
  repeat (case_match; simpl in * ); simplify_eq;
    (split; [intros key Hne | ]); simpl; try reflexivity;
    rewrite ?file_put_other by (simpl; congruence);
    rewrite ?listing_put by reflexivity; reflexivity.
Qed.

(** X13. The calls of an [activate], whatever its outcome: the two reads,
    then the copy onto the index key, then the make-public call only when
    makePublic is set, then at most one metadata write; the ACL change, when
    there is one, comes before the metadata write. *)
Theorem activate_trace (options : Options) (o : Oracle) (w : World) :
  let copy := Copy (objectKey_of options) (indexKey_of options) in
  let acl := MakePublic (indexKey_of options) in
  let write := SetMetadata (indexKey_of options) (activate_meta options) in
  exists tail,
    new_calls w (snd (activate options o w)) =
      GetFiles (revisionPrefix_of options) :: GetMetadata (indexKey_of options) :: tail /\
    (tail = [] \/ tail = [copy] \/
     (opt_makePublic options = true /\ (tail = [copy; acl] \/ tail = [copy; acl; write])) \/
     (opt_makePublic options = false /\ tail = [copy; write])).
Proof.
  unfold activate, then_, then2. rewrite fetchRevisions_run. cbv zeta.
  fold (objectKey_of options) (indexKey_of options).
  generalize (activate_meta options) as meta. intros meta.
  unfold copyObject, makePublic, setMetadata, plugin_log, reject, after_reads, issue, with_bucket.
  repeat (case_match; simpl in * ); simplify_eq; simpl;
    eexists; (split; [apply new_calls_app; simpl; rewrite <- ?app_assoc; reflexivity |]);
    tauto.
Qed.

(** X14. When the revision is listed but the copy fails, [activate] is
    rejected with the error of the copy; the bucket is as it was, and the
    copy is the last call: no ACL change, no metadata write. *)
Theorem activate_copy_failure (options : Options) (o : Oracle) (w w1 : World)
    (revisions : list Revision) (e : string) :
  fetchRevisions options o w = (Fulfilled revisions, w1) ->
  In (opt_revisionKey options) (map revision revisions) ->
  copy_error o = Some e ->
  exists w',
    activate options o w = (Rejected (ApiError e), w') /\
    bucket w' = bucket w /\ log w' = log w /\
    new_calls w w' =
      [GetFiles (revisionPrefix_of options); GetMetadata (indexKey_of options);
       Copy (objectKey_of options) (indexKey_of options)].
Proof.
  intros H Hin Hcopy. apply array_indexOf_leb in Hin.
  unfold activate, then_, then2. rewrite H, Hin. cbv zeta.
  fold (objectKey_of options) (indexKey_of options).
  apply fetchRevisions_inv in H as (-> & _).
  unfold copyObject. simpl. rewrite Hcopy. simpl.
  eexists. split; [reflexivity |]. simpl.
  split; [reflexivity |]. split; [reflexivity |].
  apply new_calls_app. simpl. now rewrite <- !app_assoc.
Qed.

(** X15. When the revision is listed, the copy succeeds and the make-public
    step is not requested or succeeds, a failure of the metadata write
    rejects [activate] with that error, after a successful make-public step
    too. The index object has by then been overwritten: it has the body and
    the metadata of the revision object, without the revision stamp of this
    call, and nothing is logged. *)
Theorem activate_setMetadata_failure (options : Options) (o : Oracle) (w w1 : World)
    (revisions : list Revision) (e : string) :
  fetchRevisions options o w = (Fulfilled revisions, w1) ->
  In (opt_revisionKey options) (map revision revisions) ->
  copy_error o = None ->
  (opt_makePublic options = true -> makePublic_error o = None) ->
  setMetadata_error o = Some e ->
  exists f w' g,
    file (bucket w) (objectKey_of options) = Some f /\
    activate options o w = (Rejected (ApiError e), w') /\
    file (bucket w') (indexKey_of options) = Some g /\
    body g = body f /\ md g = md f /\
    log w' = log w.
Proof.
  intros H Hin Hcopy Hacl Hset.
  destruct (found_object _ _ _ _ _ H Hin) as [f Hf]. exists f.
  apply array_indexOf_leb in Hin.
  unfold activate, then_, then2. rewrite H, Hin. cbv zeta.
  fold (objectKey_of options) (indexKey_of options).
  apply fetchRevisions_inv in H as (-> & _).
  unfold copyObject. simpl. rewrite Hcopy, Hf.
  destruct (opt_makePublic options).
  - unfold makePublic, setMetadata. simpl. rewrite (Hacl eq_refl).
    rewrite (file_put_key _ _ (indexKey_of options)) by reflexivity. simpl.
    rewrite Hset. simpl. eexists _, _. split; [reflexivity |].
    split; [reflexivity |]. simpl.
    split; [now apply file_put_key |]. auto.
  - unfold setMetadata. simpl. rewrite Hset. simpl.
    eexists _, _. split; [reflexivity |]. split; [reflexivity |]. simpl.
    split; [now apply file_put_key |]. auto.
Qed.

(** X16. Upload, then activate: after a fulfilled upload of a revisionKey,
    an activation of it whose listing is fulfilled and whose storage calls
    succeed is fulfilled, never rejected as "not found"; the index object
    then has the uploaded file's content as its body and the revisionKey as
    its metadata.revision. *)
Theorem upload_then_activate (options : Options) (o o2 : Oracle) (w w1 w2 : World)
    (revisions : list Revision) :
  upload options o w = (Fulfilled tt, w1) ->
  fetchRevisions options o2 w1 = (Fulfilled revisions, w2) ->
  copy_error o2 = None ->
  setMetadata_error o2 = None ->
  (opt_makePublic options = true -> makePublic_error o2 = None) ->
  exists data w' g custom,
    read_file o (opt_filePath options) = Some data /\
    activate options o2 w1 = (Fulfilled tt, w') /\
    file (bucket w') (indexKey_of options) = Some g /\
    body g = data /\
    metadata (md g) = Some custom /\
    custom !! "revision" = Some (opt_revisionKey options).
Proof.
  intros Hu Hf Hcopy Hset Hacl.
  apply upload_fulfilled_inv in Hu as (_ & data & _ & Hread & _ & _ & Hb).
  set (f := mkFile (objectKey_of options) data (wp_metadata (upload_params options o))
              (now o) (bool_decide (wp_gzip (upload_params options o) = Some true))
              false) in Hb.
  assert (Hfile : file (bucket w1) (objectKey_of options) = Some f).
  { rewrite Hb. now apply file_put_key. }
  assert (Hin : In (opt_revisionKey options) (map revision revisions)).
  { apply (listed_revision options o2 w1 w2 revisions f Hf); [| reflexivity].
    now apply (file_In _ (objectKey_of options)). }
  destruct (activate_success _ _ _ _ _ _ Hf Hin Hfile Hcopy Hset Hacl)
    as (w' & g & Hact & Hg & Hbody & Hmd & _).
  destruct (activate_meta_spec options) as (_ & _ & _ & c & Hc & Hrev & _).
  exists data, w', g, (c ∪ default ∅ (metadata (md f))).
  split; [exact Hread |]. split; [exact Hact |]. split; [exact Hg |].
  split; [exact Hbody |].
  split; [rewrite Hmd; unfold patch; cbn [metadata]; now rewrite Hc |].
  now apply lookup_union_Some_l.
Qed.

(** X17. The defaults and the stamp that [activate] puts on the caller's
    meta are idempotent: an options object whose meta is the one a previous
    call left behind gets the same meta again. *)
Theorem activate_meta_idempotent (options : Options) :
  activate_meta
    (mkOptions (opt_prefix options) (opt_filePattern options) (opt_revisionKey options)
       (opt_filePath options) (opt_acl options) (opt_allowOverwrite options)
       (opt_gzippedFilePaths options) (Some (activate_meta options))
       (opt_makePublic options))
  = activate_meta options.
Proof.
  unfold activate_meta. simpl.
  generalize (default (mkMeta ∅ None) (opt_meta options)). intros [fs custom]. simpl.
  destruct (JS.truthy (fs !! "cacheControl")) eqn:Ht; simpl.
  - destruct custom; simpl; rewrite Ht; simpl; now rewrite insert_insert_eq.
  - destruct custom; simpl; rewrite lookup_insert_eq; simpl;
      now rewrite insert_insert_eq.
Qed.

(** ** Instances on the sample *)

Lemma fetchRevisions_no_revisions_witness :
  fetchRevisions (sample_options "abc" false) calm empty_world =
  (Fulfilled [], after_reads (sample_options "abc" false) empty_world).
Proof.
  apply (fetchRevisions_no_revisions (sample_options "abc" false) calm empty_world None).
  - reflexivity.
  - apply (current_absent _ _ _ "Not Found" (Some 404)); reflexivity.
  - reflexivity.
Defined.

Lemma fetchRevisions_index_without_metadata_witness :
  fetchRevisions (sample_options "abc" false) calm bare_index_world =
  (Rejected TypeError, after_reads (sample_options "abc" false) bare_index_world).
Proof.
  apply (fetchRevisions_index_without_metadata (sample_options "abc" false) calm
           bare_index_world (mkMeta ∅ None)).
  - reflexivity.
  - reflexivity.
  - reflexivity.
  - vm_compute. discriminate.
Defined.

Lemma fetchRevisions_unstamped_index_witness :
  exists revisions,
    fetchRevisions (sample_options "abc" false) calm unstamped_index_world =
      (Fulfilled revisions, after_reads (sample_options "abc" false) unstamped_index_world) /\
    forall r, In r revisions ->
      exists b, active r = Some b /\
        (b = true <->
         exists s1 s2, "app/index.html:" +:+ revision r = s1 +:+ "undefined" +:+ s2).
Proof.
  apply (fetchRevisions_unstamped_index (sample_options "abc" false) calm
           unstamped_index_world (mkMeta ∅ (Some {[ "build" := "42" ]}))
           {[ "build" := "42" ]}).
  - reflexivity.
  - reflexivity.
  - reflexivity.
  - vm_compute. reflexivity.
Defined.

Lemma index_object_not_listed_witness :
  Forall (fun d => name d <> "app/index.html") (bucket sample_world).
Proof.
  apply (index_object_not_listed (sample_options "abc" false) calm bare_index_world
           (issue (GetFiles "app/index.html:") bare_index_world)).
  vm_compute. reflexivity.
Defined.

Lemma upload_twice_rejected_witness :
  In "new" (map revision uploaded_revisions) /\
  upload (sample_options "new" false) calm uploaded_world =
    (Rejected (Message already_uploaded),
     after_reads (sample_options "new" false) uploaded_world).
Proof.
  destruct (upload_twice_rejected (sample_options "new" false) calm calm sample_world
              uploaded_world (after_reads (sample_options "new" false) uploaded_world)
              uploaded_revisions) as [Hin Hrej].
  - vm_compute. reflexivity.
  - vm_compute. reflexivity.
  - split; [exact Hin | apply Hrej; reflexivity].
Defined.

Lemma upload_frame_witness :
  file (bucket (snd (upload (sample_options "new" false) calm bare_index_world)))
       "app/index.html"
  = file (bucket bare_index_world) "app/index.html".
Proof.
  apply (upload_frame (sample_options "new" false) calm bare_index_world "app/index.html").
  vm_compute. discriminate.
Defined.

Lemma failed_listing_aborts_witness :
  upload (sample_options "new" false) listing_down sample_world =
    (Rejected (ApiError "ECONNRESET"), after_reads (sample_options "new" false) sample_world)
  /\
  activate (sample_options "new" false) listing_down sample_world =
    (Rejected (ApiError "ECONNRESET"), after_reads (sample_options "new" false) sample_world).
Proof.
  destruct (failed_listing_aborts (sample_options "new" false) listing_down sample_world
              (after_reads (sample_options "new" false) sample_world)
              (ApiError "ECONNRESET")) as (Hu & Ha & _).
  - vm_compute. reflexivity.
  - split; [exact Hu | exact Ha].
Defined.

Lemma upload_stream_failure_witness :
  fst (upload (sample_options "new" false) stream_down sample_world) =
    Rejected (ApiError "EPIPE") /\
  fst (upload (sample_options "new" false) disk_down sample_world) = Pending.
Proof.
  split.
  - destruct (upload_stream_failure (sample_options "new" false) stream_down sample_world
                (after_reads (sample_options "new" false) sample_world) sample_revisions)
      as (H & _).
    + vm_compute. reflexivity.
    + right. simpl. intros [H | [H | [H | []]]]; discriminate.
    + rewrite (H "<html></html>" "EPIPE"); reflexivity.
  - destruct (upload_stream_failure (sample_options "new" false) disk_down sample_world
                (after_reads (sample_options "new" false) sample_world) sample_revisions)
      as (_ & H & _).
    + vm_compute. reflexivity.
    + right. simpl. intros [H | [H | [H | []]]]; discriminate.
    + rewrite H; reflexivity.
Defined.

Lemma activate_frame_witness :
  file (bucket (snd (activate (sample_options "abc" true) calm sample_world)))
       "app/index.html:abc"
  = file (bucket sample_world) "app/index.html:abc".
Proof.
  destruct (activate_frame (sample_options "abc" true) calm sample_world) as [H _].
  apply H. vm_compute. discriminate.
Defined.

Lemma activate_copy_failure_witness :
  exists w',
    activate (sample_options "abc" false) copy_down sample_world =
      (Rejected (ApiError "Backend Error"), w') /\
    bucket w' = bucket sample_world /\ log w' = log sample_world /\
    new_calls sample_world w' =
      [GetFiles "app/index.html:"; GetMetadata "app/index.html";
       Copy "app/index.html:abc" "app/index.html"].
Proof.
  apply (activate_copy_failure (sample_options "abc" false) copy_down sample_world
           (after_reads (sample_options "abc" false) sample_world) sample_revisions
           "Backend Error").
  - vm_compute. reflexivity.
  - simpl. tauto.
  - reflexivity.
Defined.

Lemma activate_setMetadata_failure_witness :
  exists f w' g,
    file (bucket sample_world) "app/index.html:abc" = Some f /\
    activate (sample_options "abc" true) metadata_write_down sample_world =
      (Rejected (ApiError "Precondition Failed"), w') /\
    file (bucket w') "app/index.html" = Some g /\
    body g = body f /\ md g = md f /\
    log w' = log sample_world.
Proof.
  apply (activate_setMetadata_failure (sample_options "abc" true) metadata_write_down
           sample_world (after_reads (sample_options "abc" true) sample_world)
           sample_revisions "Precondition Failed").
  - vm_compute. reflexivity.
  - simpl. tauto.
  - reflexivity.
  - intros _. reflexivity.
  - reflexivity.
Defined.

Lemma upload_then_activate_witness :
  exists data w' g custom,
    read_file calm "dist/index.html" = Some data /\
    activate (sample_options "new" false) calm uploaded_world = (Fulfilled tt, w') /\
    file (bucket w') "app/index.html" = Some g /\
    body g = data /\
    metadata (md g) = Some custom /\
    custom !! "revision" = Some "new".
Proof.
  apply (upload_then_activate (sample_options "new" false) calm calm sample_world
           uploaded_world (after_reads (sample_options "new" false) uploaded_world)
           uploaded_revisions).
  - vm_compute. reflexivity.
  - vm_compute. reflexivity.
  - reflexivity.
  - reflexivity.
  - intros _. reflexivity.
Defined.
